(** * OCA.py: OCR confidence analysis -- a shallow embedding of [oca.py]

    The script is an exported notebook, run cell by cell: download the METS
    and ALTO files, extract the word confidences, tabulate them per page,
    describe every page, draw the warming stripes and resize the images.
    The embedding follows the cells in that order.  Of the cells that only
    display a value, [pages_df_list[8]] is embedded, since the subscript
    raises on a document of fewer than nine pages and ends the run there;
    [pages_df_list_report_df] and [confidence_df] cannot raise and are not
    embedded, nor are the distribution plot, the HTML report and what the
    script prints while it draws.

    Conventions of the embedding.
    - A Python [float] is a [pyfloat]: a finite value carried as an exact,
      reduced rational, the two infinities, or NaN.  Rounding to binary64 is
      not represented (0 and 1 are exact in binary64 and rounding is monotone,
      so comparisons against 0 and 1 are not affected); only the overflow of
      a literal to infinity is.  Sums and products of finite values are
      exact as well and never overflow, which binary64 does beyond about
      1.8e308: what is stated about the statistics of a page is stated for
      values between 0 and 1, where no sum over a page can overflow.
      [float(str)] is embedded for ASCII text.
    - Exceptions are values of [exn]; code that can raise returns a [result].
    - The file system is explicit state.
    - pandas, matplotlib and Pillow are embedded as far as the script calls
      them, by what they do on the values the script passes. *)

From Stdlib Require Import ZArith QArith Qabs Qround String Ascii List Lia.
From Stdlib Require Import DecimalString DecimalNat DecimalFacts.
From stdpp Require Import base option list gmap strings fin_maps.

Local Open Scope string_scope.
Local Open Scope list_scope.

(** ** Exceptions and results *)

Inductive exn :=
| ValueError (msg : string)
| FileNotFoundError (path : string)
| IsADirectoryError (path : string)
| NotADirectoryError (path : string)
| ConnectionError (url : string)
| HTTPError (status : Z)
| KeyError (key : string)
| IndexError (msg : string).

Inductive result (A : Type) :=
| Ok (a : A)
| Raise (e : exn).
Arguments Ok {A} a.
Arguments Raise {A} e.

#[global] Instance result_ret : MRet result := fun A a => Ok a.
#[global] Instance result_bind : MBind result := fun A B f m =>
  match m with Ok a => f a | Raise e => Raise e end.
#[global] Instance result_fmap : FMap result := fun A B f m =>
  match m with Ok a => Ok (f a) | Raise e => Raise e end.

(** [[f(x) for x in l]] where [f] may raise: the first exception wins. *)
Fixpoint traverse {A B} (f : A → result B) (l : list A) : result (list B) :=
  match l with
  | [] => Ok []
  | x :: l' => y ← f x; ys ← traverse f l'; Ok (y :: ys)
  end.

(** ** Python floats *)

Inductive pyfloat :=
| Fin (q : Q)
| Inf (negative : bool)
| NaN.

Definition isnan (x : pyfloat) : bool :=
  match x with NaN => true | _ => false end.

Definition notna (x : pyfloat) : bool := negb (isnan x).

Module PyFloat.
Local Open Scope Z_scope.

(** *** [float(str)]

    CPython strips ASCII white space, accepts underscores between digits,
    then parses an optional sign followed by [inf], [infinity] or [nan]
    (any case) or by a decimal literal
    [digits [. [digits]] | . digits] [(e|E) [sign] digits];
    the whole string has to be consumed, otherwise [ValueError]. *)

Definition is_space (c : ascii) : bool :=
  let n := nat_of_ascii c in
  ((n =? 32)%nat || ((9 <=? n)%nat && (n <=? 13)%nat))%bool.

Definition digit_of (c : ascii) : option Z :=
  let n := nat_of_ascii c in
  if ((48 <=? n)%nat && (n <=? 57)%nat)%bool then Some (Z.of_nat n - 48) else None.

Definition is_digit (c : ascii) : bool :=
  match digit_of c with Some _ => true | None => false end.

Fixpoint lstrip (l : list ascii) : list ascii :=
  match l with
  | c :: l' => if is_space c then lstrip l' else l
  | [] => []
  end.

Definition strip (l : list ascii) : list ascii :=
  rev (lstrip (rev (lstrip l))).

(** Underscores are only allowed after a digit and before a digit. *)
Fixpoint drop_underscores (prev : option ascii) (l : list ascii)
  : option (list ascii) :=
  match l with
  | [] => if bool_decide (prev = Some "_"%char) then None else Some []
  | c :: l' =>
      if bool_decide (c = "_"%char) then
        match prev with
        | Some p => if is_digit p then drop_underscores (Some c) l' else None
        | None => None
        end
      else if bool_decide (prev = Some "_"%char) && negb (is_digit c) then None
      else (c ::.) <$> drop_underscores (Some c) l'
  end.

Definition lower (c : ascii) : ascii :=
  let n := nat_of_ascii c in
  if ((65 <=? n)%nat && (n <=? 90)%nat)%bool then ascii_of_nat (n + 32) else c.

Definition take_sign (l : list ascii) : bool * list ascii :=
  match l with
  | "-"%char :: l' => (true, l')
  | "+"%char :: l' => (false, l')
  | _ => (false, l)
  end.

Fixpoint span_digits (l : list ascii) : list Z * list ascii :=
  match l with
  | c :: l' =>
      match digit_of c with
      | Some d => let '(ds, rest) := span_digits l' in (d :: ds, rest)
      | None => ([], l)
      end
  | [] => ([], [])
  end.

Definition digits_value (ds : list Z) : Z :=
  fold_left (fun acc d => 10 * acc + d) ds 0.

(** [m * 10^e] as a reduced rational. *)
Definition scale10 (m e : Z) : Q :=
  Qred (if 0 <=? e then inject_Z (m * 10 ^ e)
        else Qmake m (Z.to_pos (10 ^ (- e)))).

(** Literals at or above [2^1024 - 2^970] round to infinity. *)
Definition overflow_threshold : Q := inject_Z (2 ^ 1024 - 2 ^ 970).

Definition round_literal (q : Q) : pyfloat :=
  if Qle_bool overflow_threshold (Qabs q) then Inf (Qle_bool q 0) else Fin q.

Definition parse_inf_or_nan (l : list ascii) : option pyfloat :=
  let '(neg, body) := take_sign l in
  let word := string_of_list_ascii (map lower body) in
  if bool_decide (word = "inf") || bool_decide (word = "infinity") then Some (Inf neg)
  else if bool_decide (word = "nan") then Some NaN
  else None.

Definition parse_exponent (l : list ascii) : option Z :=
  match l with
  | [] => Some 0
  | c :: l' =>
      if bool_decide (lower c = "e"%char) then
        let '(neg, l'') := take_sign l' in
        match span_digits l'' with
        | (d :: ds, []) =>
            let e := digits_value (d :: ds) in Some (if neg then - e else e)
        | _ => None
        end
      else None
  end.

Definition parse_decimal (l : list ascii) : option pyfloat :=
  let '(neg, l1) := take_sign l in
  let '(ip, l2) := span_digits l1 in
  let '(fp, l3) :=
    match l2 with
    | "."%char :: l2' => span_digits l2'
    | _ => ([], l2)
    end in
  match ip ++ fp with
  | [] => None
  | ds =>
      e ← parse_exponent l3;
      let m := digits_value ds in
      Some (round_literal
              (scale10 (if neg then - m else m) (e - Z.of_nat (length fp))))
  end.

Definition float_of_string (s : string) : option pyfloat :=
  l ← drop_underscores None (strip (list_ascii_of_string s));
  match parse_inf_or_nan l with
  | Some x => Some x
  | None => parse_decimal l
  end.

End PyFloat.

(** [float(s)] on a [str]. *)
Definition float (s : string) : result pyfloat :=
  match PyFloat.float_of_string s with
  | Some x => Ok x
  | None => Raise (ValueError ("could not convert string to float: '" +:+ s +:+ "'"))
  end.

(** ** Step 2: the tables of word confidences

    [pages_wc] is the nested list built from the ALTO files: pages, text
    lines, and the [WC] attribute of every [String] element, as text. *)

(** A cell of an object-dtype frame: [None] (the padding pandas puts into
    short rows), a [str], or the float NaN that [fillna] writes. *)
Inductive cell :=
| CNone
| CStr (s : string)
| CFloat (x : pyfloat).

(** Values only; the row and column labels, which the loop renames, carry
    no data and are left out. *)
Definition DataFrame := list (list cell).
Definition FloatFrame := list (list pyfloat).

(** [pd.DataFrame(item)] for a list of lists: one row per inner list, as
    many columns as the longest one, short rows filled with [None]. *)
Definition make_DataFrame (item : list (list string)) : DataFrame :=
  let ncols := max_list (map length item) in
  map (fun row => map CStr row ++ replicate (ncols - length row) CNone) item.

Definition shape {A} (df : list (list A)) : nat * nat :=
  (length df, match df with row :: _ => length row | [] => 0 end).

(** [df.fillna(value=np.nan)]: only NA cells ([None], NaN) are filled. *)
Definition fillna (df : DataFrame) : DataFrame :=
  map (map (fun c => match c with CNone => CFloat NaN | _ => c end)) df.

(** [df.replace(a, b)]. *)
Definition replace (a b : string) (df : DataFrame) : DataFrame :=
  map (map (fun c =>
              match c with
              | CStr s => if bool_decide (s = a) then CStr b else c
              | _ => c
              end)) df.

(** The object-to-float cast of one cell: [None] becomes NaN, a [str] goes
    through [float()]. *)
Definition cell_astype_float (c : cell) : result pyfloat :=
  match c with
  | CNone => Ok NaN
  | CStr s => float s
  | CFloat x => Ok x
  end.

(** [df.astype(float)]. *)
Definition astype_float (df : DataFrame) : result FloatFrame :=
  traverse (traverse cell_astype_float) df.

(** The clean-up loop.  The list is [done ++ item :: rest] with
    [index = length done]; the three assignments all write slot [index],
    and all three right-hand sides are computed from [item], the frame the
    iteration started with. *)
Fixpoint cleanup_loop (done : list FloatFrame) (todo : list DataFrame)
  : result (list FloatFrame) :=
  match todo with
  | [] => Ok done
  | item :: rest =>
      let slot := fillna item in
      let slot := replace "1." "1.0" item in
      slot ← astype_float item;
      cleanup_loop (done ++ [slot]) rest
  end.

Definition tabulate (pages_wc : list (list (list string))) : result (list FloatFrame) :=
  let pages_df_list := map make_DataFrame pages_wc in
  cleanup_loop [] pages_df_list.

(** ** Step 3: page statistics *)

Module Stats.

(** Arithmetic on [pyfloat]: exact on finite values, IEEE on the rest. *)
Definition neg (x : pyfloat) : pyfloat :=
  match x with
  | Fin q => Fin (Qred (- q))
  | Inf s => Inf (negb s)
  | NaN => NaN
  end.

Definition add (x y : pyfloat) : pyfloat :=
  match x, y with
  | NaN, _ | _, NaN => NaN
  | Inf a, Inf b => if Bool.eqb a b then Inf a else NaN
  | Inf a, Fin _ | Fin _, Inf a => Inf a
  | Fin a, Fin b => Fin (Qred (a + b))
  end.

Definition sub (x y : pyfloat) : pyfloat := add x (neg y).

Definition Qneg_bool (q : Q) : bool := negb (Qle_bool 0 q).

Definition mul (x y : pyfloat) : pyfloat :=
  match x, y with
  | NaN, _ | _, NaN => NaN
  | Inf a, Inf b => Inf (xorb a b)
  | Inf a, Fin q | Fin q, Inf a =>
      if Qeq_bool q 0 then NaN else Inf (xorb a (Qneg_bool q))
  | Fin a, Fin b => Fin (Qred (a * b))
  end.

(** Division by a positive count. *)
Definition div_nat (x : pyfloat) (n : nat) : pyfloat :=
  match x with
  | Fin q => Fin (Qred (q / inject_Z (Z.of_nat n)))
  | _ => x
  end.

Definition of_nat (n : nat) : pyfloat := Fin (inject_Z (Z.of_nat n)).

(** [x <= y] on values that are not NaN. *)
Definition leb (x y : pyfloat) : bool :=
  match x, y with
  | Inf true, _ | _, Inf false => true
  | Fin a, Fin b => Qle_bool a b
  | _, _ => false
  end.

Definition sum (xs : list pyfloat) : pyfloat := fold_left add xs (Fin 0).

(** A Series of floats, values only. *)
Definition Series := list pyfloat.

(** [df.stack()]: the cells in row-major order, NaN cells dropped. *)
Definition stack (df : FloatFrame) : Series := filter (fun x => notna x = true) (concat df).

(** [s.dropna()]: a new Series; the receiver is left as it is. *)
Definition dropna (s : Series) : Series := filter (fun x => notna x = true) s.

(** [s.count()]: the number of cells that are not NA. *)
Definition count (s : Series) : nat := length (dropna s).

(** [s.mean()], NaN on no data. *)
Definition mean (s : Series) : pyfloat :=
  let values := dropna s in
  match values with
  | [] => NaN
  | _ => div_nat (sum values) (length values)
  end.

(** [s.var()] with [ddof = 1]: NaN unless there are two values. *)
Definition var (s : Series) : pyfloat :=
  let values := dropna s in
  let n := length values in
  if (n <=? 1)%nat then NaN
  else
    let avg := div_nat (sum values) n in
    let sqr := map (fun x => let d := sub avg x in mul d d) values in
    div_nat (sum sqr) (n - 1).

(** A float square root that is not evaluated: [Sqrt x] stands for the
    float nearest to the root of [x], which is NaN exactly when [x] is. *)
Inductive pyroot := Sqrt (x : pyfloat).

Definition root_isnan (r : pyroot) : bool := let 'Sqrt x := r in isnan x.

(** [s.std()]. *)
Definition std (s : Series) : pyroot := Sqrt (var s).

Fixpoint insert_sorted (x : pyfloat) (l : list pyfloat) : list pyfloat :=
  match l with
  | [] => [x]
  | y :: l' => if leb x y then x :: l else y :: insert_sorted x l'
  end.

Definition sort (l : list pyfloat) : list pyfloat := fold_right insert_sorted [] l.

(** numpy's linear interpolation between two neighbours. *)
Definition lerp (a b : pyfloat) (t : Q) : pyfloat :=
  let diff_b_a := sub b a in
  if Qle_bool (1 # 2) t then sub b (mul diff_b_a (Fin (Qred (1 - t))))
  else add a (mul diff_b_a (Fin t)).

(** [s.quantile(q)], linear interpolation at position [q * (n - 1)]. *)
Definition quantile (q : Q) (s : Series) : pyfloat :=
  let values := sort (dropna s) in
  match values with
  | [] => NaN
  | _ =>
      let n := length values in
      let virtual_index := Qred (q * inject_Z (Z.of_nat (n - 1))) in
      let previous := Z.to_nat (Qfloor virtual_index) in
      let next := Nat.min (S previous) (n - 1) in
      let gamma := Qred (virtual_index - inject_Z (Z.of_nat previous)) in
      lerp (nth previous values NaN) (nth next values NaN) gamma
  end.

Definition min (s : Series) : pyfloat :=
  match sort (dropna s) with x :: _ => x | [] => NaN end.

Definition max (s : Series) : pyfloat :=
  match rev (sort (dropna s)) with x :: _ => x | [] => NaN end.

(** The numeric summary [s.describe()] returns; [q25], [q50], [q75] are
    its rows ["25%"], ["50%"], ["75%"]. *)
Record description := {
  d_count : pyfloat;
  d_mean : pyfloat;
  d_std : pyroot;
  d_min : pyfloat;
  d_q25 : pyfloat;
  d_q50 : pyfloat;
  d_q75 : pyfloat;
  d_max : pyfloat
}.

Definition describe (s : Series) : description :=
  {| d_count := of_nat (count s);
     d_mean := mean s;
     d_std := std s;
     d_min := min s;
     d_q25 := quantile (1 # 4) s;
     d_q50 := quantile (1 # 2) s;
     d_q75 := quantile (3 # 4) s;
     d_max := max s |}.

(** The statistics loop.  [stack.dropna()] builds a Series that nobody
    keeps: [describe] is called on [stack] itself. *)
Fixpoint report_loop (pages_df_list : list FloatFrame) (pages_df_list_report : list description)
  : list description :=
  match pages_df_list with
  | [] => pages_df_list_report
  | item :: rest =>
      let stack := stack item in
      let _ := dropna stack in
      report_loop rest (pages_df_list_report ++ [describe stack])
  end.

Definition page_statistics (pages_df_list : list FloatFrame) : list description :=
  report_loop pages_df_list [].

(** [textlines]: the number of rows of every page. *)
Definition textlines (pages_df_list : list FloatFrame) : list nat :=
  map (fun item => fst (shape item)) pages_df_list.

End Stats.

(** ** Step 4: warming stripes *)

Module Plot.

(** [Rectangle((x, y), width, height)]. *)
Record Rectangle := { xy : nat * nat; width : nat; height : nat }.

(** What the script puts into a figure before saving it: the patches of
    the collection, the array mapped to colours, the colormap and its
    limits, and the axis limits. *)
Record figure := {
  figsize : nat * nat;
  patches : list Rectangle;
  array : Stats.Series;
  cmap : string;
  clim : Q * Q;
  xlim : nat * nat;
  ylim : nat * nat
}.

(** The stripe of one Series.  The script has this code twice, word for
    word: once for the column of page means and once for every text line. *)
Definition warming_stripe (values : Stats.Series) : figure :=
  let last_item := length (Stats.dropna values) in
  {| figsize := (10, 1);
     patches := map (fun y => {| xy := (y, 0); width := 1; height := 1 |})
                    (seq 0 (last_item + 1));
     array := Stats.dropna values;
     cmap := "brg";
     clim := (0, 1)%Q;
     xlim := (0, last_item + 1);
     ylim := (0, 1) |}.

(** Where a value lands in the 256-entry lookup table of a colormap whose
    limits are [clim]: a table entry, the under or over colour, or the
    colour reserved for invalid (NaN, masked) values. *)
Inductive lut_index :=
| Entry (i : Z)
| Under
| Over
| Bad.

Definition to_lut (clim : Q * Q) (x : pyfloat) : lut_index :=
  match x with
  | NaN => Bad
  | Inf true => Under
  | Inf false => Over
  | Fin q =>
      let '(vmin, vmax) := clim in
      let t := ((q - vmin) / (vmax - vmin))%Q in
      if Qeq_bool t 1 then Entry 255
      else if negb (Qle_bool 0 t) then Under
      else if negb (Qle_bool t 1) then Over
      else Entry (Qfloor (t * 256))
  end.

(** The face colour of the [i]-th patch: the mapped colours are used
    cyclically, and with no colour at all the patch is not filled. *)
Definition facecolor (fig : figure) (i : nat) : option lut_index :=
  match array fig with
  | [] => None
  | _ => to_lut (clim fig) <$> array fig !! (i mod length (array fig))
  end.

End Plot.

(** ** Images and files *)

(** An image is what produced its pixels; two equal terms are the same
    pixels.  Sizes are (width, height). *)
Inductive image :=
| OnDisk (label : string) (size : N * N)
| Savefig (fig : Plot.figure)
| ConcatV (im1 im2 : image)
| BoxResampled (im : image) (size : N * N).

Definition dpi : N := 100.

Fixpoint image_size (im : image) : N * N :=
  match im with
  | OnDisk _ size => size
  | Savefig fig => (N.of_nat (fst (Plot.figsize fig)) * dpi, N.of_nat (snd (Plot.figsize fig)) * dpi)%N
  | ConcatV im1 im2 => (fst (image_size im1), snd (image_size im1) + snd (image_size im2))%N
  | BoxResampled _ size => size
  end.

(** [get_concat_v]: a new image as wide as [im1] and as high as both, [im1]
    pasted at the top and [im2] below it. *)
Definition get_concat_v (im1 im2 : image) : image := ConcatV im1 im2.

(** [img.resize(size, resample=Image.BOX)].  Pillow returns a copy of the
    image when the requested size is the size it has; only otherwise does
    it resample. *)
Definition resize (img : image) (size : N * N) : image :=
  if decide (image_size img = size) then img else BoxResampled img size.

(** The image files by path.  Every entry is a readable image file;
    directories are taken to exist. *)
Abbreviation files := (gmap string image).

Definition savefig (fname : string) (fig : Plot.figure) (fs : files) : files :=
  <[fname := Savefig fig]> fs.

Definition Image_open (fname : string) (fs : files) : result image :=
  match fs !! fname with
  | Some img => Ok img
  | None => Raise (FileNotFoundError fname)
  end.

Definition save (img : image) (fname : string) (fs : files) : files :=
  <[fname := img]> fs.

Definition exists_ (path : string) (fs : files) : bool := bool_decide (is_Some (fs !! path)).
Definition isfile (path : string) (fs : files) : bool := bool_decide (is_Some (fs !! path)).
Definition remove (path : string) (fs : files) : files := delete path fs.

Definition copyfile (src dst : string) (fs : files) : result files :=
  match fs !! src with
  | Some f => Ok (<[dst := f]> fs)
  | None => Raise (FileNotFoundError src)
  end.

Definition rename (src dst : string) (fs : files) : result files :=
  match fs !! src with
  | Some f => Ok (<[dst := f]> (delete src fs))
  | None => Raise (FileNotFoundError src)
  end.

Fixpoint strip_prefix (p s : string) : option string :=
  match p, s with
  | EmptyString, _ => Some s
  | String a p', String b s' => if bool_decide (a = b) then strip_prefix p' s' else None
  | _, _ => None
  end.

(** [os.listdir(dir)]: the names of the files whose path is [dir + name]. *)
Definition listdir (dir : string) (fs : files) : list string :=
  omap (strip_prefix dir) (map_to_list fs).*1.

(** [str(n)] for a non-negative [int]. *)
Definition str (n : nat) : string := NilZero.string_of_uint (Nat.to_uint n).

Definition record_id : string := "PPN86268370X".
Definition images_dir : string := record_id +:+ "/images/".
Definition temp_dir : string := record_id +:+ "/temp/".
Definition blank_png : string := "ocapy/blank.png".

Definition temp_png (page_index : nat) : string := temp_dir +:+ str page_index +:+ ".png".
Definition image_png (page_index : nat) : string := images_dir +:+ str page_index +:+ ".png".
Definition concat_png : string := temp_dir +:+ "concat.png".
Definition overview_png : string := images_dir +:+ record_id +:+ ".png".

Module Render.

(** The stripe of the whole document, saved under the record identifier.
    The table made of no summaries at all has no column ["mean"]. *)
Definition document_strip (report : list Stats.description) (fs : files) : result files :=
  match report with
  | [] => Raise (KeyError "mean")
  | _ => Ok (savefig overview_png (Plot.warming_stripe (map Stats.d_mean report)) fs)
  end.

(** One turn of the loop over the text lines of a page. *)
Definition render_line (page_index textline_index : nat) (row : Stats.Series)
    (fs : files) : result files :=
  let fig := Plot.warming_stripe row in
  fs ← (if (textline_index =? 0)%nat then Ok (savefig (temp_png page_index) fig fs)
        else Ok fs);
  if (0 <? textline_index)%nat then
    let fs := savefig concat_png fig fs in
    base ← Image_open (temp_png page_index) fs;
    add ← Image_open concat_png fs;
    Ok (save (get_concat_v base add) (temp_png page_index) fs)
  else Ok fs.

Fixpoint render_lines (page_index textline_index : nat) (rows : FloatFrame)
    (fs : files) : result files :=
  match rows with
  | [] => Ok fs
  | row :: rest =>
      fs ← render_line page_index textline_index row fs;
      render_lines page_index (S textline_index) rest fs
  end.

(** The fallback for empty pages: the blank image is copied to the images. *)
Definition use_blank (page_index : nat) (fs : files) : result files :=
  let fs := if isfile (image_png page_index) fs
            then remove (image_png page_index) fs else fs in
  copyfile blank_png (image_png page_index) fs.

(** The file of the page moves from the scratch directory to the images. *)
Definition move_composite (page_index : nat) (fs : files) : result files :=
  let fs := if isfile (image_png page_index) fs
            then remove (image_png page_index) fs else fs in
  rename (temp_png page_index) (image_png page_index) fs.

(** After the lines: no file in the scratch directory is taken to mean an
    empty page. *)
Definition store_page (page_index : nat) (fs : files) : result files :=
  if negb (exists_ (temp_png page_index) fs) then use_blank page_index fs
  else move_composite page_index fs.

Definition render_page (page_index : nat) (page : FloatFrame) (fs : files)
  : result files :=
  fs ← render_lines page_index 0 page fs;
  store_page page_index fs.

(** [for page_index, page in enumerate(pages_df_list)], from [page_index] on. *)
Fixpoint render_pages (page_index : nat) (pages : list FloatFrame) (fs : files)
  : result files :=
  match pages with
  | [] => Ok fs
  | page :: rest =>
      fs ← render_page page_index page fs;
      render_pages (S page_index) rest fs
  end.

Definition page_resolution : N * N := (210, 298)%N.
Definition overview_resolution : N * N := (420, 595)%N.

Fixpoint resize_loop (filenames : list string) (fs : files) : result files :=
  match filenames with
  | [] => Ok fs
  | filename :: rest =>
      img ← Image_open (images_dir +:+ filename) fs;
      resize_loop rest (save (resize img page_resolution) (images_dir +:+ filename) fs)
  end.

(** Every file of the images directory to 210x298, then the overview once
    more to 420x595. *)
Definition resize_images (fs : files) : result files :=
  fs ← resize_loop (listdir images_dir fs) fs;
  img ← Image_open overview_png fs;
  Ok (save (resize img overview_resolution) overview_png fs).

(** Step 4 up to and including the resize pass. *)
Definition visualize (pages_df_list : list FloatFrame)
    (report : list Stats.description) (fs : files) : result files :=
  fs ← document_strip report fs;
  fs ← render_pages 0 pages_df_list fs;
  resize_images fs.

End Render.

(** [pages_df_list[8]]: the cell that displays page 9.  A list subscript
    raises [IndexError] past the end of the list. *)
Definition peek (pages_df_list : list FloatFrame) : result FloatFrame :=
  match pages_df_list !! 8 with
  | Some item => Ok item
  | None => Raise (IndexError "list index out of range")
  end.

(** Steps 3 and 4 on the tables, from the cell that displays page 9 up to
    and including the resize pass. *)
Definition run_tabulated (pages_df_list : list FloatFrame) (fs : files)
  : result files :=
  _ ← peek pages_df_list;
  let report := Stats.page_statistics pages_df_list in
  Render.visualize pages_df_list report fs.

(** Steps 2 to 4 on the extracted confidences. *)
Definition run (pages_wc : list (list (list string))) (fs : files) : result files :=
  pages_df_list ← tabulate pages_wc;
  run_tabulated pages_df_list fs.

(** ** Step 1: downloading

    The downloaded files are byte strings; the state also records the
    directories, the URLs requested so far and what was printed. *)

Module Fetch.

Record world := {
  files : gmap string (list Byte.byte);
  dirs : gset string;
  requests : list string;
  stdout : string
}.

(** What the remote side answers to [requests.get(url, stream=True)]: no
    answer at all, or a status code and the blocks [iter_content] yields,
    [complete] telling whether the stream ends well or breaks after them. *)
Inductive response :=
| NoAnswer
| Response (status_code : Z) (blocks : list (list Byte.byte)) (complete : bool).

Definition remote := string → response.

Definition sep : ascii := "/"%char.

Fixpoint rstrip_sep_rev (l : list ascii) : list ascii :=
  match l with
  | c :: l' => if bool_decide (c = sep) then rstrip_sep_rev l' else l
  | [] => []
  end.

Fixpoint drop_tail_rev (l : list ascii) : list ascii :=
  match l with
  | c :: l' => if bool_decide (c = sep) then l else drop_tail_rev l'
  | [] => []
  end.

(** [os.path.dirname(p)]: everything up to the last slash, without the
    trailing slashes unless there is nothing else. *)
Definition dirname (p : string) : string :=
  let head_rev := drop_tail_rev (rev (list_ascii_of_string p)) in
  match rstrip_sep_rev head_rev with
  | [] => string_of_list_ascii (rev head_rev)
  | stripped => string_of_list_ascii (rev stripped)
  end.

Definition path_exists (path : string) (w : world) : bool :=
  bool_decide (is_Some (files w !! path)) || bool_decide (path ∈ dirs w).

(** The path and each of its ancestors, shortest first. *)
Fixpoint ancestors (pre : list ascii) (l : list ascii) : list string :=
  match l with
  | [] => match pre with [] => [] | _ => [string_of_list_ascii pre] end
  | c :: l' =>
      (if bool_decide (c = sep)
       then match rstrip_sep_rev (rev pre) with
            | [] => []
            | _ => [string_of_list_ascii pre]
            end
       else [])
      ++ ancestors (pre ++ [c]) l'
  end.

(** [os.makedirs(name)]: creates the directory and every missing ancestor. *)
Definition makedirs (name : string) (w : world) : result unit * world :=
  let chain := ancestors [] (list_ascii_of_string name) in
  match chain with
  | [] => (Raise (FileNotFoundError name), w)
  | _ =>
      match list_find (fun d => is_Some (files w !! d)) chain with
      | Some (_, d) => (Raise (NotADirectoryError d), w)
      | None =>
          (Ok (),
           {| files := files w; dirs := dirs w ∪ list_to_set chain;
              requests := requests w; stdout := stdout w |})
      end
  end.

(** [open(filename, 'wb')]: the file is created, or emptied, at once. *)
Definition open_wb (filename : string) (w : world) : result unit * world :=
  if bool_decide (filename ∈ dirs w) then (Raise (IsADirectoryError filename), w)
  else if bool_decide (dirname filename = "") || bool_decide (dirname filename ∈ dirs w) then
    (Ok (),
     {| files := <[filename := []]> (files w); dirs := dirs w;
        requests := requests w; stdout := stdout w |})
  else (Raise (FileNotFoundError filename), w).

Definition write (filename : string) (block : list Byte.byte) (w : world) : world :=
  {| files := alter (fun content => content ++ block) filename (files w);
     dirs := dirs w; requests := requests w; stdout := stdout w |}.

Definition print (text : string) (w : world) : world :=
  {| files := files w; dirs := dirs w; requests := requests w;
     stdout := stdout w +:+ text |}.

(** [raise_for_status] raises on the 4xx and 5xx codes. *)
Definition is_error_status (status_code : Z) : bool :=
  ((400 <=? status_code) && (status_code <? 600))%Z.

Definition download_file (net : remote) (filename url : string) (w : world)
  : result unit * world :=
  match open_wb filename w with
  | (Raise e, w) => (Raise e, w)
  | (Ok _, w) =>
      let w := {| files := files w; dirs := dirs w;
                  requests := requests w ++ [url]; stdout := stdout w |} in
      match net url with
      | NoAnswer => (Raise (ConnectionError url), w)
      | Response status_code blocks complete =>
          if is_error_status status_code then (Raise (HTTPError status_code), w)
          else
            let w := fold_left (fun w block => write filename block w) blocks w in
            if complete then (Ok (), w) else (Raise (ConnectionError url), w)
      end
  end.

Definition download_if_not_exists (net : remote) (filename url : string) (w : world)
  : result unit * world :=
  if negb (path_exists filename w) then
    let dirname := dirname filename in
    match (if negb (path_exists dirname w) then makedirs dirname w else (Ok (), w)) with
    | (Raise e, w) => (Raise e, w)
    | (Ok _, w) =>
        let w := print ("Retrieving: " +:+ url) w in
        match download_file net filename url w with
        | (Raise e, w) => (Raise e, w)
        | (Ok _, w) => (Ok (), print (" -> Done!" +:+ String (ascii_of_nat 10) "") w)
        end
    end
  else
    (Ok (), print ("Using local copy: " +:+ filename +:+ String (ascii_of_nat 10) "") w).

End Fetch.

(** ** Step 1, continued: the files of the record *)

Module Corpus.

Fixpoint basename_rev (l : list ascii) : list ascii :=
  match l with
  | c :: l' => if bool_decide (c = Fetch.sep) then [] else c :: basename_rev l'
  | [] => []
  end.

(** [os.path.basename(p)]: what follows the last slash. *)
Definition basename (p : string) : string :=
  string_of_list_ascii (rev (basename_rev (rev (list_ascii_of_string p)))).

Definition mets_dir : string := record_id +:+ "/mets/".
Definition mets_url : string := "https://mets.sub.uni-hamburg.de/kitodo/" +:+ record_id.
Definition mets_filename : string := mets_dir +:+ record_id +:+ ".xml".
Definition alto_dir : string := record_id +:+ "/alto/".

(** The METS file of the record. *)
Definition download_mets (net : Fetch.remote) (w : Fetch.world)
  : result unit * Fetch.world :=
  Fetch.download_if_not_exists net mets_filename mets_url w.

(** The loop over the full-text URLs: each file goes to the ALTO directory
    under the last component of its URL; the first exception ends the loop. *)
Fixpoint download_alto (net : Fetch.remote) (fulltext_path : list string)
    (w : Fetch.world) : result unit * Fetch.world :=
  match fulltext_path with
  | [] => (Ok (), w)
  | alto_url :: rest =>
      let alto_filename := alto_dir +:+ basename alto_url in
      match Fetch.download_if_not_exists net alto_filename alto_url w with
      | (Raise e, w) => (Raise e, w)
      | (Ok _, w) => download_alto net rest w
      end
  end.

End Corpus.

(** * Vocabulary of the properties *)

(** Every token of the document is accepted by [float]. *)
Definition tokens_parse (pages_wc : list (list (list string))) : Prop :=
  Forall (Forall (Forall (fun token => ∃ x, float token = Ok x))) pages_wc.

(** The values of a page that are not missing: its own tokens, in reading
    order, without those that read as NaN. *)
Definition nonmissing (values : list pyfloat) : list pyfloat :=
  filter (fun x => notna x = true) values.

(** Every field of a summary is NaN. *)
Definition all_fields_missing (d : Stats.description) : Prop :=
  isnan (Stats.d_count d) = true ∧ isnan (Stats.d_mean d) = true
  ∧ Stats.root_isnan (Stats.d_std d) = true ∧ isnan (Stats.d_min d) = true
  ∧ isnan (Stats.d_q25 d) = true ∧ isnan (Stats.d_q50 d) = true
  ∧ isnan (Stats.d_q75 d) = true ∧ isnan (Stats.d_max d) = true.

(** The summary of a Series without values. *)
Definition empty_description : Stats.description :=
  {| Stats.d_count := Fin 0; Stats.d_mean := NaN; Stats.d_std := Stats.Sqrt NaN;
     Stats.d_min := NaN; Stats.d_q25 := NaN; Stats.d_q50 := NaN;
     Stats.d_q75 := NaN; Stats.d_max := NaN |}.

(** A page none of whose cells holds a value, a page without lines included. *)
Definition no_values (item : FloatFrame) : Prop :=
  Forall (Forall (fun x => isnan x = true)) item.

(** A line holds a missing value. *)
Definition has_missing (row : Stats.Series) : Prop := ∃ x, x ∈ row ∧ isnan x = true.

(** Some cell of the stripe of [row] is drawn in the colour the colormap
    keeps for invalid values. *)
Definition drawn_as_invalid (row : Stats.Series) : Prop :=
  ∃ i, i < length (Plot.patches (Plot.warming_stripe row))
       ∧ Plot.facecolor (Plot.warming_stripe row) i = Some Plot.Bad.

(** A missing value of the line shows: some cell has the invalid colour,
    and the stripe differs from that of every line that has no missing
    value. *)
Definition missing_is_visible (row : Stats.Series) : Prop :=
  drawn_as_invalid row
  ∧ ∀ row', ¬ has_missing row' → Plot.warming_stripe row ≠ Plot.warming_stripe row'.

(** The strips of further lines pasted below [base], in line order. *)
Definition stack_lines (base : image) (rows : FloatFrame) : image :=
  fold_left (fun acc row => get_concat_v acc (Savefig (Plot.warming_stripe row))) rows base.

(** The composite image of a page: none for a page without lines. *)
Definition composite (page : FloatFrame) : option image :=
  match page with
  | [] => None
  | row :: rest => Some (stack_lines (Savefig (Plot.warming_stripe row)) rest)
  end.

(** Two states of the files that differ at most at the paths in [touched]. *)
Definition same_outside (touched : string → Prop) (fs fs' : files) : Prop :=
  ∀ p, ¬ touched p → fs' !! p = fs !! p.

(** The image a page ends up with: its composite, or, for a page without
    lines, what the scratch directory held under its number, or the blank. *)
Definition page_image (blank : image) (leftover : option image) (page : FloatFrame) : image :=
  match composite page with
  | Some c => c
  | None => match leftover with Some old => old | None => blank end
  end.

(** The paths the turn for page [i] may write or delete. *)
Definition page_paths (i : nat) (p : string) : Prop :=
  p = temp_png i ∨ p = image_png i ∨ p = concat_png.

(** The same for the [n] pages from page [k] on. *)
Definition pages_paths (k n : nat) (p : string) : Prop :=
  p = concat_png ∨ ∃ j, j < n ∧ (p = temp_png (k + j) ∨ p = image_png (k + j)).

(** What the resize loop does to one image. *)
Definition to_page_resolution (img : image) : image := resize img Render.page_resolution.

(** Whenever the blank image is on disk, the run on the tables ends with the
    blank image, brought to the page resolution, under the number of page
    [i]. *)
Definition placeholder_written (pages : list FloatFrame) (fs : files) (i : nat) : Prop :=
  ∀ blank, fs !! blank_png = Some blank →
    ∃ fs', run_tabulated pages fs = Ok fs'
           ∧ fs' !! image_png i = Some (resize blank Render.page_resolution).

(** The stripes an image is made of, from top to bottom; an image that was
    read from disk or resampled is not made of stripes any more. *)
Fixpoint strips (im : image) : list Plot.figure :=
  match im with
  | Savefig fig => [fig]
  | ConcatV im1 im2 => strips im1 ++ strips im2
  | OnDisk _ _ | BoxResampled _ _ => []
  end.

(** A cell that holds a finite value or none: no infinity. *)
Definition finite_or_missing (x : pyfloat) : Prop := x = NaN ∨ ∃ q, x = Fin q.

(** A cell that holds a confidence between 0 and 1, or none. *)
Definition confidence_or_missing (x : pyfloat) : Prop :=
  x = NaN ∨ ∃ q, x = Fin q ∧ (0 <= q)%Q ∧ (q <= 1)%Q.

(** The pages that have at least one value. *)
Definition pages_with_values (pages : list FloatFrame) : list FloatFrame :=
  filter (fun item => Stats.stack item ≠ []) pages.

(** Concrete tables: every cell is either NaN or a given rational. *)
Ltac cells_by_cases :=
  repeat match goal with |- Forall _ _ => constructor end;
  first [left; reflexivity | right; eexists; repeat split; reflexivity | right; eexists; repeat split; discriminate].

(** A decidable fact about a concrete state, by evaluating its decision. *)
Ltac by_evaluation :=
  lazymatch goal with
  | |- ¬ ?P => apply (bool_decide_eq_false_1 P); vm_compute; reflexivity
  | |- ?P => apply (bool_decide_eq_true_1 P); vm_compute; reflexivity
  end.

(** * Properties *)

(** ** Evaluations on small inputs *)

Example float_1dot : float "1." = Ok (Fin 1).
Proof. reflexivity. Qed.

Example float_09 : float "0.95" = Ok (Fin (19 # 20)).
Proof. reflexivity. Qed.

Example float_None : float "None" = Raise (ValueError "could not convert string to float: 'None'").
Proof. reflexivity. Qed.

Example float_misc :
  float " 1_0.5e-1 " = Ok (Fin (21 # 20)) ∧ float "-Infinity" = Ok (Inf true)
  ∧ float "nan" = Ok NaN ∧ float "." = Raise (ValueError "could not convert string to float: '.'")
  ∧ float "1e" = Raise (ValueError "could not convert string to float: '1e'")
  ∧ float "1e400" = Ok (Inf false) ∧ float ".5" = Ok (Fin (1 # 2)).
Proof. vm_compute. repeat split. Qed.

Example tabulate_scenario :
  tabulate [[["0.9"; "0.8"]; ["0.95"]]; []]
  = Ok [[[Fin (9 # 10); Fin (4 # 5)]; [Fin (19 # 20); NaN]]; []].
Proof. reflexivity. Qed.

Example tabulate_1dot : tabulate [[["1."; "0.5"]]] = Ok [[[Fin 1; Fin (1 # 2)]]].
Proof. reflexivity. Qed.

Example tabulate_None :
  tabulate [[["1."; "0.5"; "None"]]]
  = Raise (ValueError "could not convert string to float: 'None'").
Proof. reflexivity. Qed.

Example describe_scenario :
  Stats.page_statistics [[[Fin (9 # 10); Fin (4 # 5)]; [Fin (19 # 20); NaN]]; []]
  = [ {| Stats.d_count := Fin 3; Stats.d_mean := Fin (53 # 60);
         Stats.d_std := Stats.Sqrt (Fin (7 # 1200));
         Stats.d_min := Fin (4 # 5); Stats.d_q25 := Fin (17 # 20);
         Stats.d_q50 := Fin (9 # 10); Stats.d_q75 := Fin (37 # 40);
         Stats.d_max := Fin (19 # 20) |};
      {| Stats.d_count := Fin 0; Stats.d_mean := NaN; Stats.d_std := Stats.Sqrt NaN;
         Stats.d_min := NaN; Stats.d_q25 := NaN; Stats.d_q50 := NaN;
         Stats.d_q75 := NaN; Stats.d_max := NaN |} ].
Proof. vm_compute. reflexivity. Qed.

Example dirname_alto : Fetch.dirname "PPN86268370X/alto/00000001.xml" = "PPN86268370X/alto".
Proof. reflexivity. Qed.

Example dirname_plain : Fetch.dirname "file.xml" = "" ∧ Fetch.dirname "/file.xml" = "/".
Proof. split; reflexivity. Qed.

(** The document of two pages, the second without lines: the run stops at
    the cell that displays page 9, before any image is written. *)
Example run_scenario_two_pages :
  let fs : files := {[ blank_png := OnDisk "blank" (210, 298)%N ]} in
  run [[["0.9"; "0.8"]; ["0.95"]]; []] fs
  = Raise (IndexError "list index out of range").
Proof. vm_compute. reflexivity. Qed.

(** The same two pages followed by seven more: the images of the first two
    pages exist at 210x298 and the second one is the blank image. *)
Example run_scenario :
  let fs : files := {[ blank_png := OnDisk "blank" (210, 298)%N ]} in
  let more := [["0.5"]] in
  match run [[["0.9"; "0.8"]; ["0.95"]]; []; more; more; more; more; more; more; more] fs with
  | Ok fs' => (image_size <$> fs' !! image_png 0, fs' !! image_png 1, fs' !! temp_png 0)
  | Raise _ => (None, None, None)
  end = (Some (210, 298)%N, Some (OnDisk "blank" (210, 298)%N), None).
Proof. vm_compute. reflexivity. Qed.

(** ** Results and traversals *)

Lemma traverse_app {A B} (f : A → result B) (l1 l2 : list A) :
  traverse f (l1 ++ l2)
  = (y1 ← traverse f l1; y2 ← traverse f l2; Ok (y1 ++ y2)).
Proof.
  induction l1 as [|x l1 IH]; simpl.
  - destruct (traverse f l2); reflexivity.
  - destruct (f x) as [y|e]; simpl; [|reflexivity].
    rewrite IH. destruct (traverse f l1) as [y1|e]; simpl; [|reflexivity].
    destruct (traverse f l2); reflexivity.
Qed.

Lemma traverse_map {A B C} (f : B → result C) (g : A → B) (l : list A) :
  traverse f (map g l) = traverse (fun x => f (g x)) l.
Proof.
  induction l as [|x l IH]; simpl; [reflexivity|].
  destruct (f (g x)); simpl; [|reflexivity]. rewrite IH. reflexivity.
Qed.

Lemma traverse_Ok_cons {A B} (f : A → result B) x l ys :
  traverse f (x :: l) = Ok ys →
  ∃ y ys', ys = y :: ys' ∧ f x = Ok y ∧ traverse f l = Ok ys'.
Proof.
  simpl. destruct (f x) as [y|e]; simpl; [|discriminate].
  destruct (traverse f l) as [ys'|e]; simpl; [|discriminate].
  intros [= <-]. eauto.
Qed.

Lemma traverse_lookup {A B} (f : A → result B) l ys i x :
  traverse f l = Ok ys → l !! i = Some x → ∃ y, ys !! i = Some y ∧ f x = Ok y.
Proof.
  revert ys i. induction l as [|a l IH]; intros ys i Hok Hi; [discriminate|].
  apply traverse_Ok_cons in Hok as (y & ys' & -> & Hy & Hl).
  destruct i as [|i]; simpl in *.
  - injection Hi as ->. eauto.
  - eauto.
Qed.

Lemma traverse_Raise_elem {A B} (f : A → result B) l x e :
  x ∈ l → f x = Raise e → ∃ e', traverse f l = Raise e'.
Proof.
  intros Hin Hx. induction Hin as [x l|x a l Hin IH]; simpl.
  - rewrite Hx. eauto.
  - destruct (f a); simpl; [|eauto].
    destruct (IH Hx) as [e' ->]. eauto.
Qed.

Lemma traverse_concat {A B} (f : A → result B) ls rs :
  traverse (traverse f) ls = Ok rs → traverse f (concat ls) = Ok (concat rs).
Proof.
  revert rs. induction ls as [|l ls IH]; intros rs Hok.
  - injection Hok as <-. reflexivity.
  - apply traverse_Ok_cons in Hok as (r & rs' & -> & Hr & Hrs).
    simpl. rewrite traverse_app, Hr. simpl. rewrite (IH _ Hrs). reflexivity.
Qed.

(** ** The clean-up loop is a cast of the frames it started with *)

(** What [fillna] and [replace] return is overwritten before it is read. *)
Lemma cleanup_loop_astype done todo :
  cleanup_loop done todo = (fun l => done ++ l) <$> traverse astype_float todo.
Proof.
  revert done. induction todo as [|item rest IH]; intros done; simpl.
  - unfold fmap, result_fmap. rewrite app_nil_r. reflexivity.
  - destruct (astype_float item) as [slot|e]; simpl; [|reflexivity].
    rewrite IH. destruct (traverse astype_float rest); simpl; [|reflexivity].
    rewrite <- app_assoc. reflexivity.
Qed.

Lemma tabulate_astype pages_wc :
  tabulate pages_wc = traverse (fun item => astype_float (make_DataFrame item)) pages_wc.
Proof.
  unfold tabulate. rewrite cleanup_loop_astype, traverse_map.
  destruct (traverse _ pages_wc); reflexivity.
Qed.

(** The cast of a padded row: the tokens through [float], NaN for the padding. *)
Lemma astype_padded_row (row : list string) (k : nat) :
  traverse cell_astype_float (map CStr row ++ replicate k CNone)
  = (fun values => values ++ replicate k NaN) <$> traverse float row.
Proof.
  induction row as [|s row IH]; simpl.
  - induction k as [|k IH]; simpl; [reflexivity|]. rewrite IH. reflexivity.
  - destruct (float s) as [x|e]; simpl; [|reflexivity].
    rewrite IH. destruct (traverse float row); reflexivity.
Qed.

(** A frame cast to float is, row by row, the parsed tokens followed by NaN. *)
Lemma astype_make_DataFrame (item : list (list string)) (df : FloatFrame) :
  astype_float (make_DataFrame item) = Ok df →
  ∃ values : list (list pyfloat),
    traverse (traverse float) item = Ok values
    ∧ Forall2 (fun v row => ∃ k, row = v ++ replicate k NaN) values df.
Proof.
  unfold astype_float, make_DataFrame.
  generalize (max_list (map length item)) as ncols. intros ncols.
  rewrite traverse_map. revert df.
  induction item as [|row item IH]; intros df Hok.
  - injection Hok as <-. exists []. split; [reflexivity|constructor].
  - apply traverse_Ok_cons in Hok as (r & df' & -> & Hr & Hdf).
    rewrite astype_padded_row in Hr.
    destruct (traverse float row) as [v|e] eqn:Ev; simpl in Hr; [|discriminate].
    injection Hr as <-.
    destruct (IH _ Hdf) as (values & Hv & Hall).
    exists (v :: values). split.
    + simpl. rewrite Ev. simpl. rewrite Hv. reflexivity.
    + constructor; eauto.
Qed.

Lemma filter_notna_replicate_NaN (k : nat) :
  filter (fun x => notna x = true) (replicate k NaN) = [].
Proof. induction k as [|k IH]; [reflexivity|]. simpl. rewrite filter_cons_False; auto. Qed.

Lemma stack_ignores_padding (values df : list (list pyfloat)) :
  Forall2 (fun v row => ∃ k, row = v ++ replicate k NaN) values df →
  Stats.stack df = filter (fun x => notna x = true) (concat values).
Proof.
  unfold Stats.stack. induction 1 as [|v row values df [k ->] _ IH]; [reflexivity|].
  simpl. rewrite !filter_app, filter_notna_replicate_NaN, app_nil_r, IH. reflexivity.
Qed.

Lemma dropna_stack df : Stats.dropna (Stats.stack df) = Stats.stack df.
Proof.
  unfold Stats.dropna, Stats.stack.
  apply list_filter_filter_l. auto.
Qed.

Lemma report_loop_map pages acc :
  Stats.report_loop pages acc = acc ++ map (fun item => Stats.describe (Stats.stack item)) pages.
Proof.
  revert acc. induction pages as [|item rest IH]; intros acc; simpl.
  - rewrite app_nil_r. reflexivity.
  - rewrite IH, <- app_assoc. reflexivity.
Qed.

Lemma page_statistics_map pages :
  Stats.page_statistics pages = map (fun item => Stats.describe (Stats.stack item)) pages.
Proof. unfold Stats.page_statistics. rewrite report_loop_map. reflexivity. Qed.

Lemma traverse_total {A B} (f : A → result B) (l : list A) :
  Forall (fun x => ∃ y, f x = Ok y) l → ∃ ys, traverse f l = Ok ys.
Proof.
  induction 1 as [|x l [y Hy] _ [ys IH]]; simpl; [eauto|].
  rewrite Hy. simpl. rewrite IH. simpl. eauto.
Qed.

Lemma astype_make_DataFrame_total (item : list (list string)) :
  Forall (Forall (fun token => ∃ x, float token = Ok x)) item →
  ∃ df, astype_float (make_DataFrame item) = Ok df.
Proof.
  intros Hitem. unfold astype_float, make_DataFrame.
  generalize (max_list (map length item)) as ncols. intros ncols.
  rewrite traverse_map. apply traverse_total.
  eapply Forall_impl; [exact Hitem|]. intros row Hrow. simpl.
  rewrite astype_padded_row.
  destruct (traverse_total float row Hrow) as [v ->]. simpl. eauto.
Qed.

Lemma tabulate_total pages_wc :
  tokens_parse pages_wc → ∃ pages_df_list, tabulate pages_wc = Ok pages_df_list.
Proof.
  intros H. rewrite tabulate_astype. apply traverse_total.
  eapply Forall_impl; [exact H|]. intros item. apply astype_make_DataFrame_total.
Qed.

(** Where a token sits in [pages_wc], its float sits in the tables. *)
Lemma tabulate_lookup pages_wc pages_df_list p l w page line token :
  tabulate pages_wc = Ok pages_df_list →
  pages_wc !! p = Some page → page !! l = Some line → line !! w = Some token →
  ∃ df row x, pages_df_list !! p = Some df ∧ df !! l = Some row
              ∧ row !! w = Some x ∧ float token = Ok x.
Proof.
  rewrite tabulate_astype. intros Hok Hp Hl Hw.
  destruct (traverse_lookup _ _ _ _ _ Hok Hp) as (df & Hdf & Hcast).
  apply astype_make_DataFrame in Hcast as (values & Hvalues & Hrows).
  destruct (traverse_lookup _ _ _ _ _ Hvalues Hl) as (v & Hv & Hline).
  destruct (traverse_lookup _ _ _ _ _ Hline Hw) as (x & Hx & Hfloat).
  destruct (Forall2_lookup_l _ _ _ _ _ Hrows Hv) as (row & Hrow & k & ->).
  exists df, (v ++ replicate k NaN), x. repeat split; auto.
  rewrite lookup_app_l; [exact Hx|]. eapply lookup_lt_Some; eauto.
Qed.

(** A cell that pads a short row is NaN in the table. *)
Lemma padding_cell_is_NaN : cell_astype_float CNone = Ok NaN.
Proof. reflexivity. Qed.

(** A token that reads ["None"] anywhere in the document aborts the run. *)
Lemma tabulate_None_token_raises pages_wc page line :
  page ∈ pages_wc → line ∈ page → "None" ∈ line → ∃ e, tabulate pages_wc = Raise e.
Proof.
  intros Hpage Hline Htoken. rewrite tabulate_astype.
  assert (∃ e, traverse float line = Raise e) as [e1 H1].
  { eapply traverse_Raise_elem; [exact Htoken|reflexivity]. }
  assert (∃ e, astype_float (make_DataFrame page) = Raise e) as [e2 H2].
  { unfold astype_float, make_DataFrame. rewrite traverse_map.
    eapply traverse_Raise_elem; [exact Hline|].
    simpl. rewrite astype_padded_row, H1. reflexivity. }
  eapply traverse_Raise_elem; [exact Hpage|exact H2].
Qed.

(** ** Claims on the tabulation *)

(** C1.  The claim asks that a token spelled ["None"] becomes NaN like a
    padding cell does.  The script says so in its comment on [fillna], but
    [fillna] only fills NA cells, its result is overwritten, and the cast
    that follows calls [float] on the text: the run stops with a
    [ValueError].  Evaluated on a page of one line with the one token
    ["None"]; [fillna] leaves that table as it was. *)
Theorem textual_None_is_fatal :
  tabulate [[["None"]]] = Raise (ValueError "could not convert string to float: 'None'")
  ∧ fillna (make_DataFrame [["None"]]) = make_DataFrame [["None"]]
  ∧ cell_astype_float CNone = Ok NaN.
Proof. repeat split. Qed.

(** C3.  The token ["1."] is read as exactly 1.0: [float] accepts it, and
    in every document whose tokens are all accepted the tables are built
    and hold 1.0 wherever the document has ["1."]. *)
Theorem literal_one_dot_is_one (pages_wc : list (list (list string))) :
  tokens_parse pages_wc →
  float "1." = Ok (Fin 1)
  ∧ ∃ pages_df_list, tabulate pages_wc = Ok pages_df_list
    ∧ ∀ p l w page line,
        pages_wc !! p = Some page → page !! l = Some line → line !! w = Some "1." →
        ∃ df row, pages_df_list !! p = Some df ∧ df !! l = Some row
                  ∧ row !! w = Some (Fin 1).
Proof.
  intros Hparse. split; [reflexivity|].
  destruct (tabulate_total _ Hparse) as [pages_df_list Hok].
  exists pages_df_list. split; [exact Hok|].
  intros p l w page line Hp Hl Hw.
  destruct (tabulate_lookup _ _ _ _ _ _ _ _ Hok Hp Hl Hw) as (df & row & x & ? & ? & ? & Hx).
  assert (x = Fin 1) as -> by (cbv in Hx; congruence).
  eauto.
Qed.

Lemma literal_one_dot_is_one_witness :
  tokens_parse [[["1."; "0.5"]; ["1."]]]
  ∧ ∃ pages_df_list, tabulate [[["1."; "0.5"]; ["1."]]] = Ok pages_df_list.
Proof.
  assert (tokens_parse [[["1."; "0.5"]; ["1."]]]) as H.
  { repeat constructor; eexists; reflexivity. }
  split; [exact H|].
  destruct (literal_one_dot_is_one _ H) as (_ & dfs & Hok & _). eauto.
Defined.

(** ** Claims on the page statistics *)

(** C5.  The count of a page is the number of its tokens that are not
    missing; the NaN cells that pad short lines to the longest one do not
    enter it.  For every page of a document that tabulates, the statistics
    have an entry whose count is that number. *)
Theorem count_ignores_padding (pages_wc : list (list (list string)))
    (pages_df_list : list FloatFrame) (p : nat) (page : list (list string)) :
  tabulate pages_wc = Ok pages_df_list →
  pages_wc !! p = Some page →
  ∃ values d,
    traverse float (concat page) = Ok values
    ∧ Stats.page_statistics pages_df_list !! p = Some d
    ∧ Stats.d_count d = Stats.of_nat (length (nonmissing values)).
Proof.
  rewrite tabulate_astype. intros Hok Hp.
  destruct (traverse_lookup _ _ _ _ _ Hok Hp) as (df & Hdf & Hcast).
  apply astype_make_DataFrame in Hcast as (values & Hvalues & Hrows).
  exists (concat values), (Stats.describe (Stats.stack df)). split; [|split].
  - apply traverse_concat, Hvalues.
  - rewrite page_statistics_map, list_lookup_fmap_Some. eauto.
  - simpl. unfold Stats.count. rewrite dropna_stack.
    rewrite (stack_ignores_padding _ _ Hrows). reflexivity.
Qed.

Lemma count_ignores_padding_witness :
  ∃ values d,
    traverse float (concat [["0.9"; "0.8"]; ["0.95"]]) = Ok values
    ∧ Stats.page_statistics [[[Fin (9 # 10); Fin (4 # 5)]; [Fin (19 # 20); NaN]]; []] !! 0
      = Some d
    ∧ Stats.d_count d = Stats.of_nat (length (nonmissing values)).
Proof.
  apply (count_ignores_padding [[["0.9"; "0.8"]; ["0.95"]]; []] _ 0); reflexivity.
Defined.

Lemma stack_no_values item : no_values item → Stats.stack item = [].
Proof.
  unfold Stats.stack. induction 1 as [|row item Hrow _ IH]; [reflexivity|].
  simpl. rewrite filter_app, IH, app_nil_r.
  induction Hrow as [|x row Hx _ IHrow]; [reflexivity|].
  rewrite filter_cons_False; [exact IHrow|].
  unfold notna. rewrite Hx. discriminate.
Qed.

(** C4, as the code has it.  The statistics of a page without values are
    computed, not refused: the count is 0 and every other field (mean, std,
    min, the quartiles, max) is NaN. *)
Theorem empty_page_statistics (item : FloatFrame) :
  no_values item →
  Stats.page_statistics [item] = [empty_description]
  ∧ Stats.d_count empty_description = Fin 0
  ∧ isnan (Stats.d_mean empty_description) = true
  ∧ Stats.root_isnan (Stats.d_std empty_description) = true
  ∧ isnan (Stats.d_min empty_description) = true
  ∧ isnan (Stats.d_q25 empty_description) = true
  ∧ isnan (Stats.d_q50 empty_description) = true
  ∧ isnan (Stats.d_q75 empty_description) = true
  ∧ isnan (Stats.d_max empty_description) = true.
Proof.
  intros H. split; [|repeat split].
  rewrite page_statistics_map. simpl. rewrite (stack_no_values _ H). reflexivity.
Qed.

Lemma empty_page_statistics_witness :
  no_values [[NaN; NaN]; [NaN; NaN]]
  ∧ Stats.page_statistics [[[NaN; NaN]; [NaN; NaN]]] = [empty_description].
Proof.
  assert (no_values [[NaN; NaN]; [NaN; NaN]]) as H by (repeat constructor).
  split; [exact H|]. exact (proj1 (empty_page_statistics _ H)).
Defined.

(** C4 as stated fails on the count: a page without lines is counted as 0
    words, which is not NaN. *)
Lemma empty_page_count_is_zero :
  tabulate [[]] = Ok [[]]
  ∧ Stats.page_statistics [[]] = [empty_description]
  ∧ ¬ all_fields_missing empty_description.
Proof.
  repeat split. intros (H & _). discriminate.
Qed.

(** ** Claims on the stripes *)

Lemma warming_stripe_patches (values : Stats.Series) :
  length (Plot.patches (Plot.warming_stripe values)) = S (length (Stats.dropna values)).
Proof. simpl. rewrite length_map, length_seq. lia. Qed.

Lemma document_strip_Ok (report : list Stats.description) (fs : files) :
  0 < length report →
  Render.document_strip report fs
  = Ok (savefig overview_png (Plot.warming_stripe (map Stats.d_mean report)) fs).
Proof. destruct report; simpl; [lia|reflexivity]. Qed.

(** C2.  The comment in the script promises a rectangle for each page, and
    the claim counts M cells for M page means.  The collection is built over
    [range(0, last_item + 1)], one rectangle more than there are means, and
    the x axis is opened to M + 1 so that the extra cell is in view; the
    colours being used cyclically, the extra cell repeats the first one. *)
Theorem document_strip_has_one_cell_too_many (report : list Stats.description)
    (fs : files) :
  0 < length report →
  ∃ fs' fig,
    Render.document_strip report fs = Ok fs'
    ∧ fs' !! overview_png = Some (Savefig fig)
    ∧ length (Plot.array fig) = length (Stats.dropna (map Stats.d_mean report))
    ∧ length (Plot.patches fig) = S (length (Plot.array fig))
    ∧ Plot.xlim fig = (0, S (length (Plot.array fig)))
    ∧ Plot.facecolor fig (length (Plot.array fig)) = Plot.facecolor fig 0.
Proof.
  intros Hlen. destruct report as [|d report]; [simpl in Hlen; lia|].
  eexists. exists (Plot.warming_stripe (map Stats.d_mean (d :: report))).
  split; [reflexivity|].
  split; [apply lookup_insert_eq|]. split; [reflexivity|].
  split; [apply warming_stripe_patches|]. split.
  - cbn [Plot.xlim Plot.array Plot.warming_stripe]. f_equal. lia.
  - unfold Plot.facecolor.
    destruct (Plot.array (Plot.warming_stripe (map Stats.d_mean (d :: report))))
      as [|x l] eqn:E; [reflexivity|].
    rewrite Nat.Div0.mod_same, Nat.Div0.mod_0_l. reflexivity.
Qed.

Lemma document_strip_has_one_cell_too_many_witness :
  ∃ fs' fig,
    Render.document_strip (Stats.page_statistics [[[Fin (1 # 2)]]]) ∅ = Ok fs'
    ∧ fs' !! overview_png = Some (Savefig fig)
    ∧ length (Plot.array fig) = 1
    ∧ length (Plot.patches fig) = 2.
Proof.
  destruct (document_strip_has_one_cell_too_many
              (Stats.page_statistics [[[Fin (1 # 2)]]]) ∅)
    as (fs' & fig & Hrun & Hfig & Harray & Hpatches & _); [simpl; lia|].
  exists fs', fig. split; [exact Hrun|]. split; [exact Hfig|].
  assert (length (Plot.array fig) = 1) as Hone by exact Harray.
  split; [exact Hone|]. rewrite Hpatches, Hone. reflexivity.
Defined.

(** One page with the single value 0.5: one mean, two cells of one colour. *)
Example document_strip_of_one_page :
  let fig := Plot.warming_stripe (map Stats.d_mean (Stats.page_statistics [[[Fin (1 # 2)]]])) in
  Plot.array fig = [Fin (1 # 2)]
  ∧ length (Plot.patches fig) = 2
  ∧ Plot.facecolor fig 0 = Some (Plot.Entry 128)
  ∧ Plot.facecolor fig 1 = Some (Plot.Entry 128).
Proof. vm_compute. repeat split. Qed.

Lemma dropna_dropna (values : Stats.Series) :
  Stats.dropna (Stats.dropna values) = Stats.dropna values.
Proof. unfold Stats.dropna. apply list_filter_filter_l. auto. Qed.

Lemma to_lut_not_Bad (clim : Q * Q) (x : pyfloat) :
  notna x = true → Plot.to_lut clim x ≠ Plot.Bad.
Proof.
  destruct x as [q|[]|]; simpl; try discriminate. intros _.
  destruct clim as [vmin vmax].
  repeat match goal with |- context [if ?b then _ else _] => destruct b end;
    discriminate.
Qed.

(** C6, as the code has it.  Missing values are dropped before the stripe
    is built: the stripe of a line is the stripe of the line without its
    missing values, and no cell of it gets the invalid colour. *)
Theorem missing_values_are_dropped (row : Stats.Series) :
  Plot.warming_stripe row = Plot.warming_stripe (Stats.dropna row)
  ∧ ¬ has_missing (Plot.array (Plot.warming_stripe row))
  ∧ ∀ i, Plot.facecolor (Plot.warming_stripe row) i ≠ Some Plot.Bad.
Proof.
  split; [|split].
  - unfold Plot.warming_stripe. rewrite dropna_dropna. reflexivity.
  - simpl. intros (x & Hin & Hnan). unfold Stats.dropna in Hin.
    apply list_elem_of_filter in Hin as [Hx _]. unfold notna in Hx.
    rewrite Hnan in Hx. discriminate.
  - intros i. unfold Plot.facecolor. simpl.
    destruct (Stats.dropna row) as [|x0 values] eqn:E; [discriminate|].
    rewrite <- E.
    destruct (Stats.dropna row !! (i mod length (Stats.dropna row))) as [x|] eqn:Hx;
      simpl; [|discriminate].
    intros [= Hbad]. revert Hbad. apply to_lut_not_Bad.
    apply list_elem_of_lookup_2 in Hx. unfold Stats.dropna in Hx.
    apply list_elem_of_filter in Hx as [Hx _]. exact Hx.
Qed.

(** C6 as stated fails: the line [0.5, NaN] is drawn exactly as the line
    [0.5], and none of its cells has the invalid colour. *)
Lemma missing_value_leaves_no_trace :
  has_missing [Fin (1 # 2); NaN] ∧ ¬ missing_is_visible [Fin (1 # 2); NaN].
Proof.
  split.
  - exists NaN. split; [|reflexivity]. apply list_elem_of_lookup. exists 1. reflexivity.
  - intros [_ Hdiff]. apply (Hdiff [Fin (1 # 2)]); [|reflexivity].
    intros (x & Hin & Hnan). apply list_elem_of_singleton in Hin as ->. discriminate.
Qed.

(** ** File names *)

Lemma list_ascii_of_string_append (s t : string) :
  list_ascii_of_string (s +:+ t) = list_ascii_of_string s ++ list_ascii_of_string t.
Proof. induction s as [|c s IH]; simpl; [reflexivity|]. rewrite IH. reflexivity. Qed.

Lemma append_inj_r (s1 s2 t : string) : s1 +:+ t = s2 +:+ t → s1 = s2.
Proof.
  intros H. apply (f_equal list_ascii_of_string) in H.
  rewrite !list_ascii_of_string_append in H. apply app_inv_tail in H.
  rewrite <- (string_of_list_ascii_of_string s1), <- (string_of_list_ascii_of_string s2).
  rewrite H. reflexivity.
Qed.

Lemma to_uint_nonnil (n : nat) : Nat.to_uint n ≠ Decimal.Nil.
Proof.
  rewrite <- (DecimalNat.Unsigned.of_to n) at 1.
  rewrite DecimalNat.Unsigned.to_of. apply DecimalFacts.unorm_nonnil.
Qed.

Lemma str_inj (n m : nat) : str n = str m → n = m.
Proof.
  unfold str. intros H. apply DecimalNat.Unsigned.to_uint_inj.
  pose proof (NilZero.usu _ (to_uint_nonnil n)) as Hn.
  pose proof (NilZero.usu _ (to_uint_nonnil m)) as Hm.
  rewrite H in Hn. congruence.
Qed.

Lemma str_head (n : nat) :
  ∃ c s, str n = String c s ∧ PyFloat.is_digit c = true.
Proof.
  unfold str. destruct (Nat.to_uint n); simpl; eauto.
Qed.

Lemma temp_png_inj i j : temp_png i = temp_png j → i = j.
Proof.
  unfold temp_png. intros H. apply String.app_inj in H.
  apply append_inj_r in H. apply str_inj, H.
Qed.

Lemma image_png_inj i j : image_png i = image_png j → i = j.
Proof.
  unfold image_png. intros H. apply String.app_inj in H.
  apply append_inj_r in H. apply str_inj, H.
Qed.

Lemma temp_ne_image i j : temp_png i ≠ image_png j.
Proof. intros H. cbv [temp_png image_png temp_dir images_dir record_id String.app] in H. discriminate. Qed.

Lemma temp_ne_concat i : temp_png i ≠ concat_png.
Proof.
  unfold temp_png, concat_png. intros H. apply String.app_inj in H.
  destruct (str_head i) as (c & s & Hs & Hc). rewrite Hs in H.
  injection H as -> _. discriminate.
Qed.

Lemma temp_ne_blank i : temp_png i ≠ blank_png.
Proof. intros H. cbv [temp_png temp_dir record_id blank_png String.app] in H. discriminate. Qed.

Lemma temp_ne_overview i : temp_png i ≠ overview_png.
Proof.
  intros H. cbv [temp_png overview_png temp_dir images_dir record_id String.app] in H.
  discriminate.
Qed.

Lemma image_ne_concat i : image_png i ≠ concat_png.
Proof.
  intros H. cbv [image_png concat_png temp_dir images_dir record_id String.app] in H.
  discriminate.
Qed.

Lemma image_ne_blank i : image_png i ≠ blank_png.
Proof. intros H. cbv [image_png images_dir record_id blank_png String.app] in H. discriminate. Qed.

Lemma image_ne_overview i : image_png i ≠ overview_png.
Proof.
  unfold image_png, overview_png. intros H. apply String.app_inj in H.
  destruct (str_head i) as (c & s & Hs & Hc). rewrite Hs in H.
  injection H as -> _. discriminate.
Qed.

Lemma concat_ne_blank : concat_png ≠ blank_png.
Proof. discriminate. Qed.

Lemma concat_ne_overview : concat_png ≠ overview_png.
Proof. discriminate. Qed.

Lemma overview_ne_blank : overview_png ≠ blank_png.
Proof. discriminate. Qed.

Lemma strip_prefix_Some (p s n : string) : strip_prefix p s = Some n ↔ s = p +:+ n.
Proof.
  revert s. induction p as [|a p IH]; intros s; simpl.
  - split; [intros [= ->]|intros ->]; reflexivity.
  - destruct s as [|b s]; [split; discriminate|].
    case_bool_decide as Hab.
    + subst b. rewrite IH. split; [intros ->; reflexivity|intros [= ->]; reflexivity].
    + split; [discriminate|]. intros [= -> _]. contradiction.
Qed.

(** ** The loop over the pages *)

Lemma render_lines_further i t rows (fs : files) base :
  0 < t → fs !! temp_png i = Some base →
  ∃ fs', Render.render_lines i t rows fs = Ok fs'
         ∧ fs' !! temp_png i = Some (stack_lines base rows)
         ∧ same_outside (fun p => p = temp_png i ∨ p = concat_png) fs fs'.
Proof.
  revert t fs base. induction rows as [|row rest IH]; intros t fs base Ht Hbase.
  - exists fs. repeat split; auto.
  - simpl. unfold Render.render_line.
    assert ((t =? 0)%nat = false) as -> by (apply Nat.eqb_neq; lia).
    assert ((0 <? t)%nat = true) as -> by (apply Nat.ltb_lt; lia).
    simpl. unfold Image_open, savefig, save.
    rewrite (lookup_insert_ne _ concat_png (temp_png i))
      by (apply not_eq_sym, temp_ne_concat).
    rewrite Hbase. simpl. rewrite lookup_insert_eq. simpl.
    edestruct (IH (S t)) as (fs' & Hrun & Htemp & Hsame);
      [lia|apply lookup_insert_eq|].
    exists fs'. split; [exact Hrun|]. split; [exact Htemp|].
    intros p Hp. rewrite (Hsame p Hp).
    rewrite !lookup_insert_ne; [reflexivity|intros <-; tauto|intros <-; tauto].
Qed.

Lemma render_lines_spec i page (fs : files) :
  ∃ fs', Render.render_lines i 0 page fs = Ok fs'
         ∧ fs' !! temp_png i
           = match composite page with Some c => Some c | None => fs !! temp_png i end
         ∧ same_outside (fun p => p = temp_png i ∨ p = concat_png) fs fs'.
Proof.
  destruct page as [|row rest].
  - exists fs. repeat split.
  - simpl. unfold Render.render_line. simpl. unfold savefig.
    edestruct (render_lines_further i 1 rest) as (fs' & Hrun & Htemp & Hsame);
      [lia|apply lookup_insert_eq|].
    exists fs'. split; [exact Hrun|]. split; [exact Htemp|].
    intros p Hp. rewrite (Hsame p Hp).
    rewrite lookup_insert_ne; [reflexivity|intros <-; tauto].
Qed.

Lemma overwrite_lookup i (fs : files) p :
  p ≠ image_png i →
  (if isfile (image_png i) fs then remove (image_png i) fs else fs) !! p = fs !! p.
Proof.
  intros Hp. destruct (isfile (image_png i) fs); [|reflexivity].
  apply lookup_delete_ne. auto.
Qed.

Lemma move_composite_spec i (fs : files) c :
  fs !! temp_png i = Some c →
  ∃ fs', Render.move_composite i fs = Ok fs'
         ∧ fs' !! image_png i = Some c
         ∧ fs' !! temp_png i = None
         ∧ same_outside (fun p => p = temp_png i ∨ p = image_png i) fs fs'.
Proof.
  intros Htemp. unfold Render.move_composite, rename.
  rewrite overwrite_lookup by apply temp_ne_image. rewrite Htemp.
  eexists. split; [reflexivity|]. split; [apply lookup_insert_eq|]. split.
  - rewrite lookup_insert_ne by (apply not_eq_sym, temp_ne_image).
    apply lookup_delete_eq.
  - intros p Hp. rewrite lookup_insert_ne by (intros <-; tauto).
    rewrite lookup_delete_ne by (intros <-; tauto).
    apply overwrite_lookup. tauto.
Qed.

Lemma use_blank_cases i (fs : files) :
  match fs !! blank_png with
  | Some blank =>
      ∃ fs', Render.use_blank i fs = Ok fs'
             ∧ fs' !! image_png i = Some blank
             ∧ same_outside (fun p => p = image_png i) fs fs'
  | None => Render.use_blank i fs = Raise (FileNotFoundError blank_png)
  end.
Proof.
  unfold Render.use_blank, copyfile.
  rewrite overwrite_lookup by (apply not_eq_sym, image_ne_blank).
  destruct (fs !! blank_png) as [blank|]; [|reflexivity].
  eexists. split; [reflexivity|]. split; [apply lookup_insert_eq|].
  intros p Hp. rewrite lookup_insert_ne by (intros <-; tauto).
  apply overwrite_lookup. tauto.
Qed.

Lemma store_page_test i (fs : files) :
  negb (exists_ (temp_png i) fs) = true ↔ fs !! temp_png i = None.
Proof.
  unfold exists_. destruct (fs !! temp_png i) as [c|].
  - rewrite bool_decide_eq_true_2 by eauto. split; discriminate.
  - rewrite bool_decide_eq_false_2 by (intros [? ?]; discriminate). tauto.
Qed.

Lemma store_page_None i (fs : files) :
  fs !! temp_png i = None → Render.store_page i fs = Render.use_blank i fs.
Proof.
  intros H. apply store_page_test in H. unfold Render.store_page. rewrite H. reflexivity.
Qed.

Lemma store_page_Some i (fs : files) c :
  fs !! temp_png i = Some c → Render.store_page i fs = Render.move_composite i fs.
Proof.
  intros H. unfold Render.store_page.
  destruct (negb (exists_ (temp_png i) fs)) eqn:E; [|reflexivity].
  apply store_page_test in E. congruence.
Qed.

Lemma store_page_frame i (fs fs' : files) :
  Render.store_page i fs = Ok fs' →
  fs' !! temp_png i = None
  ∧ same_outside (fun p => p = temp_png i ∨ p = image_png i) fs fs'.
Proof.
  destruct (fs !! temp_png i) as [c|] eqn:Htemp.
  - rewrite (store_page_Some _ _ _ Htemp).
    destruct (move_composite_spec i fs c Htemp) as (fs2 & -> & _ & Hnone & Hsame).
    intros [= <-]. auto.
  - rewrite (store_page_None _ _ Htemp).
    pose proof (use_blank_cases i fs) as H.
    destruct (fs !! blank_png) as [blank|].
    + destruct H as (fs2 & -> & _ & Hsame). intros [= <-]. split.
      * rewrite Hsame; [exact Htemp|]. apply temp_ne_image.
      * intros p Hp. apply Hsame. tauto.
    + rewrite H. discriminate.
Qed.

Lemma store_page_spec i (fs : files) blank :
  fs !! blank_png = Some blank →
  ∃ fs', Render.store_page i fs = Ok fs'
         ∧ fs' !! image_png i
           = Some (match fs !! temp_png i with Some c => c | None => blank end)
         ∧ fs' !! temp_png i = None
         ∧ same_outside (fun p => p = temp_png i ∨ p = image_png i) fs fs'.
Proof.
  intros Hblank. destruct (fs !! temp_png i) as [c|] eqn:Htemp.
  - rewrite (store_page_Some _ _ _ Htemp). apply move_composite_spec, Htemp.
  - rewrite (store_page_None _ _ Htemp).
    pose proof (use_blank_cases i fs) as H. rewrite Hblank in H.
    destruct H as (fs' & Hrun & Himg & Hsame).
    exists fs'. split; [exact Hrun|]. split; [exact Himg|]. split.
    + rewrite Hsame; [exact Htemp|]. apply temp_ne_image.
    + intros p Hp. apply Hsame. tauto.
Qed.

Lemma render_page_spec i page (fs : files) blank :
  fs !! blank_png = Some blank →
  ∃ fs', Render.render_page i page fs = Ok fs'
         ∧ fs' !! image_png i = Some (page_image blank (fs !! temp_png i) page)
         ∧ fs' !! temp_png i = None
         ∧ same_outside (page_paths i) fs fs'.
Proof.
  intros Hblank. unfold Render.render_page.
  destruct (render_lines_spec i page fs) as (fs1 & Hrun1 & Htemp1 & Hsame1).
  rewrite Hrun1. simpl.
  assert (fs1 !! blank_png = Some blank) as Hblank1.
  { rewrite Hsame1; [exact Hblank|].
    intros [H|H]; [symmetry in H; revert H; apply temp_ne_blank|].
    symmetry in H. revert H. apply concat_ne_blank. }
  destruct (store_page_spec i fs1 blank Hblank1) as (fs' & Hrun & Himg & Htemp & Hsame).
  exists fs'. split; [exact Hrun|]. split; [|split; [exact Htemp|]].
  - rewrite Himg, Htemp1. unfold page_image. destruct (composite page); reflexivity.
  - intros p Hp. unfold page_paths in Hp.
    rewrite Hsame by tauto. apply Hsame1. tauto.
Qed.

Lemma render_pages_spec k pages (fs : files) blank :
  fs !! blank_png = Some blank →
  ∃ fs', Render.render_pages k pages fs = Ok fs'
         ∧ (∀ j page, pages !! j = Some page →
              fs' !! image_png (k + j)
              = Some (page_image blank (fs !! temp_png (k + j)) page)
              ∧ fs' !! temp_png (k + j) = None)
         ∧ same_outside (pages_paths k (length pages)) fs fs'.
Proof.
  revert k fs. induction pages as [|page rest IH]; intros k fs Hblank.
  - exists fs. repeat split; intros; discriminate.
  - simpl.
    destruct (render_page_spec k page fs blank Hblank)
      as (fs1 & Hrun1 & Himg1 & Htemp1 & Hsame1).
    rewrite Hrun1. simpl.
    assert (fs1 !! blank_png = Some blank) as Hblank1.
    { rewrite Hsame1; [exact Hblank|]. unfold page_paths.
      intros [H|[H|H]]; symmetry in H; revert H;
        [apply temp_ne_blank|apply image_ne_blank|apply concat_ne_blank]. }
    destruct (IH (S k) fs1 Hblank1) as (fs' & Hrun & Hpages & Hsame).
    exists fs'. split; [exact Hrun|]. split.
    + intros [|j] pg Hj; simpl in Hj.
      * injection Hj as <-. rewrite Nat.add_0_r.
        assert (¬ pages_paths (S k) (length rest) (image_png k)) as Hi.
        { intros [H|(j & _ & [H|H])].
          - revert H. apply image_ne_concat.
          - symmetry in H. revert H. apply temp_ne_image.
          - apply image_png_inj in H. lia. }
        assert (¬ pages_paths (S k) (length rest) (temp_png k)) as Ht.
        { intros [H|(j & _ & [H|H])].
          - revert H. apply temp_ne_concat.
          - apply temp_png_inj in H. lia.
          - revert H. apply temp_ne_image. }
        rewrite (Hsame _ Hi), (Hsame _ Ht). auto.
      * replace (k + S j) with (S k + j) by lia.
        destruct (Hpages j pg Hj) as [Himg Htemp]. split; [|exact Htemp].
        rewrite Himg. rewrite Hsame1; [reflexivity|].
        unfold page_paths. intros [H|[H|H]].
        -- apply temp_png_inj in H. lia.
        -- revert H. apply temp_ne_image.
        -- revert H. apply temp_ne_concat.
    + intros p Hp. rewrite Hsame.
      * apply Hsame1. intros [H|[H|H]]; apply Hp.
        -- right. exists 0. rewrite Nat.add_0_r. split; [simpl; lia|auto].
        -- right. exists 0. rewrite Nat.add_0_r. split; [simpl; lia|auto].
        -- left. exact H.
      * intros [H|(j & Hj & H)]; apply Hp; [left; exact H|].
        right. exists (S j). replace (k + S j) with (S k + j) by lia.
        split; [simpl; lia|exact H].
Qed.

Lemma render_pages_app k pages1 pages2 (fs : files) :
  Render.render_pages k (pages1 ++ pages2) fs
  = (fs1 ← Render.render_pages k pages1 fs;
     Render.render_pages (k + length pages1) pages2 fs1).
Proof.
  revert k fs. induction pages1 as [|page rest IH]; intros k fs; simpl.
  - rewrite Nat.add_0_r. reflexivity.
  - destruct (Render.render_page k page fs) as [fs1|e]; simpl; [|reflexivity].
    rewrite IH. replace (S k + length rest) with (k + S (length rest)) by lia.
    reflexivity.
Qed.

Lemma render_page_frame i page (fs fs' : files) :
  Render.render_page i page fs = Ok fs' → same_outside (page_paths i) fs fs'.
Proof.
  unfold Render.render_page.
  destruct (render_lines_spec i page fs) as (fs1 & -> & _ & Hsame1). simpl.
  intros Hstore. apply store_page_frame in Hstore as [_ Hsame].
  intros p Hp. unfold page_paths in Hp.
  rewrite Hsame by tauto. apply Hsame1. tauto.
Qed.

(** Whatever becomes of the run, the pages up to [i] leave the scratch file
    of page [i] alone. *)
Lemma render_pages_frame k pages (fs fs' : files) :
  Render.render_pages k pages fs = Ok fs' →
  same_outside (pages_paths k (length pages)) fs fs'.
Proof.
  revert k fs. induction pages as [|page rest IH]; intros k fs; simpl.
  - intros [= <-] p _. reflexivity.
  - destruct (Render.render_page k page fs) as [fs1|e] eqn:Hpage; simpl; [|discriminate].
    intros Hrest p Hp. rewrite (IH _ _ Hrest).
    + apply (render_page_frame _ _ _ _ Hpage). intros [H|[H|H]]; apply Hp.
      * right. exists 0. rewrite Nat.add_0_r. split; [lia|auto].
      * right. exists 0. rewrite Nat.add_0_r. split; [lia|auto].
      * left. exact H.
    + intros [H|(j & Hj & H)]; apply Hp; [left; exact H|].
      right. exists (S j). replace (k + S j) with (S k + j) by lia.
      split; [lia|exact H].
Qed.

(** ** The resize pass *)

Lemma image_size_resize img size : image_size (resize img size) = size.
Proof. unfold resize. case_decide; [assumption|reflexivity]. Qed.

Lemma resize_same_size img size : image_size img = size → resize img size = img.
Proof. intros H. unfold resize. rewrite decide_True by exact H. reflexivity. Qed.

Lemma NoDup_omap_inj {A B} (f : A → option B) (l : list A) :
  (∀ x y z, f x = Some z → f y = Some z → x = y) → NoDup l → NoDup (omap f l).
Proof.
  intros Hinj. induction 1 as [|x l Hx _ IH]; simpl; [constructor|].
  destruct (f x) as [z|] eqn:Hz; [|exact IH].
  constructor; [|exact IH]. intros Hin.
  apply list_elem_of_omap in Hin as (y & Hy & Hfy).
  rewrite (Hinj _ _ _ Hz Hfy) in Hx. contradiction.
Qed.

Lemma NoDup_listdir dir (fs : files) : NoDup (listdir dir fs).
Proof.
  unfold listdir. apply NoDup_omap_inj; [|apply NoDup_fst_map_to_list].
  intros x y z Hx Hy. apply strip_prefix_Some in Hx, Hy. congruence.
Qed.

Lemma elem_of_listdir dir (fs : files) name :
  name ∈ listdir dir fs ↔ is_Some (fs !! (dir +:+ name)).
Proof.
  unfold listdir. rewrite list_elem_of_omap. split.
  - intros (p & Hp & Hname). apply strip_prefix_Some in Hname as ->.
    apply list_elem_of_fmap in Hp as ([p img] & -> & Hin).
    apply elem_of_map_to_list in Hin. simpl. eauto.
  - intros [img Himg]. exists (dir +:+ name). split; [|apply strip_prefix_Some; reflexivity].
    apply list_elem_of_fmap. exists (dir +:+ name, img). split; [reflexivity|].
    apply elem_of_map_to_list, Himg.
Qed.

Lemma resize_loop_spec filenames (fs : files) :
  NoDup filenames →
  (∀ name, name ∈ filenames → is_Some (fs !! (images_dir +:+ name))) →
  ∃ fs', Render.resize_loop filenames fs = Ok fs'
         ∧ (∀ name, name ∈ filenames →
              fs' !! (images_dir +:+ name)
              = to_page_resolution <$> fs !! (images_dir +:+ name))
         ∧ (∀ p, (∀ name, name ∈ filenames → p ≠ images_dir +:+ name) →
              fs' !! p = fs !! p).
Proof.
  intros Hnodup. revert fs.
  induction Hnodup as [|filename rest Hnotin _ IH]; intros fs Hall.
  - exists fs. repeat split. intros name Hin. inversion Hin.
  - simpl. unfold Image_open, save.
    destruct (Hall filename) as [img Himg]; [left|]. rewrite Himg. simpl.
    edestruct (IH (<[images_dir +:+ filename := resize img Render.page_resolution]> fs))
      as (fs' & Hrun & Hin & Hout).
    { intros name Hname. destruct (decide (name = filename)) as [->|Hne].
      - rewrite lookup_insert_eq. eauto.
      - rewrite lookup_insert_ne; [apply Hall; right; exact Hname|].
        intros H. apply String.app_inj in H. congruence. }
    exists fs'. split; [exact Hrun|]. split.
    + intros name Hname. apply elem_of_cons in Hname as [->|Hname].
      * rewrite Hout.
        -- rewrite lookup_insert_eq, Himg. reflexivity.
        -- intros name Hname H. apply String.app_inj in H. congruence.
      * rewrite (Hin _ Hname). rewrite lookup_insert_ne; [reflexivity|].
        intros H. apply String.app_inj in H. congruence.
    + intros p Hp. rewrite Hout.
      * apply lookup_insert_ne. apply not_eq_sym, Hp. left.
      * intros name Hname. apply Hp. right. exact Hname.
Qed.

Lemma resize_images_spec (fs : files) :
  is_Some (fs !! overview_png) →
  ∃ fs', Render.resize_images fs = Ok fs'
         ∧ ∀ i, fs' !! image_png i = to_page_resolution <$> fs !! image_png i.
Proof.
  intros Hoverview. unfold Render.resize_images.
  destruct (resize_loop_spec (listdir images_dir fs) fs) as (fs1 & Hrun & Hin & Hout).
  { apply NoDup_listdir. }
  { intros name. apply elem_of_listdir. }
  rewrite Hrun. simpl. unfold Image_open, save.
  assert (is_Some (fs1 !! overview_png)) as [img Himg].
  { unfold overview_png in *. rewrite Hin by (apply elem_of_listdir, Hoverview).
    destruct Hoverview as [img ->]. simpl. eauto. }
  rewrite Himg. simpl. eexists. split; [reflexivity|]. intros i.
  rewrite lookup_insert_ne by (apply not_eq_sym, image_ne_overview).
  set (name := str i +:+ ".png").
  change (image_png i) with (images_dir +:+ name).
  destruct (fs !! (images_dir +:+ name)) as [im|] eqn:Hi.
  - rewrite Hin; [rewrite Hi; reflexivity|]. apply elem_of_listdir. eauto.
  - simpl. rewrite Hout; [exact Hi|].
    intros name' Hname' Heq. apply elem_of_listdir in Hname' as [? Hname'].
    rewrite <- Heq in Hname'. congruence.
Qed.

Lemma resize_resize img size : resize (resize img size) size = resize img size.
Proof. apply resize_same_size, image_size_resize. Qed.

(** ** Claims on the images *)

(** C8.  An image that already has the page resolution comes out of the
    resize unchanged, pixel for pixel; a second resize pass over the images
    directory therefore leaves such a page image as it is. *)
Theorem resize_is_idempotent (img : image) :
  image_size img = Render.page_resolution →
  resize img Render.page_resolution = img
  ∧ ∀ (fs : files) i,
      fs !! image_png i = Some img → is_Some (fs !! overview_png) →
      ∃ fs', Render.resize_images fs = Ok fs' ∧ fs' !! image_png i = Some img.
Proof.
  intros Hsize. split; [apply resize_same_size, Hsize|].
  intros fs i Himg Hoverview.
  destruct (resize_images_spec fs Hoverview) as (fs' & Hrun & Hpages).
  exists fs'. split; [exact Hrun|].
  rewrite Hpages, Himg. simpl. unfold to_page_resolution.
  rewrite resize_same_size by exact Hsize. reflexivity.
Qed.

Lemma resize_is_idempotent_witness :
  let img := resize (Savefig (Plot.warming_stripe [Fin (1 # 2)])) Render.page_resolution in
  image_size img = Render.page_resolution ∧ resize img Render.page_resolution = img.
Proof.
  split; [reflexivity|].
  apply (resize_is_idempotent
           (resize (Savefig (Plot.warming_stripe [Fin (1 # 2)])) Render.page_resolution)).
  reflexivity.
Defined.

(** C10.  With no file left under the number of page [i] in the scratch
    directory, the blank image is taken exactly for a page without lines.
    Once the run has reached page [i], the loop over its lines ends with the
    composite of the page in the scratch directory if the page has a line
    (whatever the values of the line) and with no file there if it has none;
    the test of the branch is true exactly when the page has no line; a page
    with a line is moved to the images.  With the blank image on disk the
    loop over all the pages ends, the image of page [i] being the composite
    of its lines, or the blank image if it has none. *)
Theorem blank_iff_no_lines (pages : list FloatFrame) (i : nat) (page : FloatFrame)
    (fs : files) :
  pages !! i = Some page →
  fs !! temp_png i = None →
  (∀ fs_i, Render.render_pages 0 (take i pages) fs = Ok fs_i →
     ∃ fs1,
       Render.render_lines i 0 page fs_i = Ok fs1
       ∧ fs1 !! temp_png i = composite page
       ∧ (negb (exists_ (temp_png i) fs1) = true ↔ page = [])
       ∧ (page = [] → Render.store_page i fs1 = Render.use_blank i fs1)
       ∧ (∀ c, composite page = Some c →
            ∃ fs2, Render.store_page i fs1 = Render.move_composite i fs1
                   ∧ Render.move_composite i fs1 = Ok fs2
                   ∧ fs2 !! image_png i = Some c
                   ∧ fs2 !! temp_png i = None))
  ∧ (∀ blank, fs !! blank_png = Some blank →
       ∃ fs', Render.render_pages 0 pages fs = Ok fs'
              ∧ fs' !! image_png i
                = Some (match composite page with Some c => c | None => blank end)).
Proof.
  intros Hpage Hnone. split.
  - intros fs_i Hreach.
    assert (fs_i !! temp_png i = None) as Hnone_i.
    { rewrite (render_pages_frame _ _ _ _ Hreach); [exact Hnone|].
      intros [H|(j & Hj & [H|H])].
      - revert H. apply temp_ne_concat.
      - apply temp_png_inj in H. rewrite length_take in Hj. lia.
      - revert H. apply temp_ne_image. }
    destruct (render_lines_spec i page fs_i) as (fs1 & Hrun1 & Htemp1 & _).
    exists fs1. split; [exact Hrun1|].
    assert (fs1 !! temp_png i = composite page) as Hfile.
    { rewrite Htemp1. destruct (composite page); [reflexivity|exact Hnone_i]. }
    split; [exact Hfile|]. split; [|split].
    + rewrite store_page_test, Hfile. destruct page; simpl; split; congruence.
    + intros ->. apply store_page_None. exact Hfile.
    + intros c Hc. rewrite Hc in Hfile.
      destruct (move_composite_spec i fs1 c Hfile) as (fs2 & Hmove & Himg & Htemp & _).
      exists fs2. split; [apply (store_page_Some _ _ _ Hfile)|]. auto.
  - intros blank Hblank.
    destruct (render_pages_spec 0 pages fs blank Hblank) as (fs' & Hrun & Hpages & _).
    exists fs'. split; [exact Hrun|].
    destruct (Hpages i page Hpage) as [Himg _]. simpl in Himg.
    rewrite Himg, Hnone. reflexivity.
Qed.

Lemma blank_iff_no_lines_witness :
  let fs : files := {[ blank_png := OnDisk "blank" (210, 298)%N ]} in
  let pages := [[[Fin (9 # 10); Fin (4 # 5)]; [Fin (19 # 20); NaN]]; []; [[NaN]]] in
  ∃ fs', Render.render_pages 0 pages fs = Ok fs'
         ∧ fs' !! image_png 1 = Some (OnDisk "blank" (210, 298)%N)
         ∧ fs' !! image_png 2 = Some (Savefig (Plot.warming_stripe [NaN])).
Proof.
  intros fs pages.
  destruct (blank_iff_no_lines pages 1 [] fs) as [_ H1]; [reflexivity..|].
  destruct (blank_iff_no_lines pages 2 [[NaN]] fs) as [_ H2]; [reflexivity..|].
  destruct (H1 (OnDisk "blank" (210, 298)%N)) as (fs' & Hrun & Himg1); [reflexivity|].
  destruct (H2 (OnDisk "blank" (210, 298)%N)) as (fs'' & Hrun' & Himg2); [reflexivity|].
  exists fs'. split; [exact Hrun|]. split; [exact Himg1|].
  rewrite Hrun in Hrun'. injection Hrun' as <-. exact Himg2.
Defined.

(** The cell that displays page 9 passes exactly on a document of nine
    pages or more; a shorter document ends the run there, with the files as
    they were. *)
Lemma run_tabulated_long (pages : list FloatFrame) (fs : files) :
  (9 <= length pages)%nat →
  run_tabulated pages fs = Render.visualize pages (Stats.page_statistics pages) fs.
Proof.
  intros Hlong. unfold run_tabulated, peek.
  destruct (lookup_lt_is_Some_2 pages 8) as [item ->]; [exact Hlong|]. reflexivity.
Qed.


(** C7, as the code has it.  On a document of at least nine pages (the
    script displays page 9 before it draws), with the blank image on disk
    and no file left under the number of a page without lines in the
    scratch directory, the run ends with the blank image under that number,
    at 210x298 after the resize pass; and every page of the document, with
    or without lines, has an image at 210x298 under its own number. *)
Theorem blank_page_gets_placeholder (pages : list FloatFrame) (fs : files)
    (blank : image) (i : nat) :
  (9 <= length pages)%nat →
  fs !! blank_png = Some blank →
  pages !! i = Some [] →
  fs !! temp_png i = None →
  ∃ fs',
    run_tabulated pages fs = Ok fs'
    ∧ fs' !! image_png i = Some (resize blank Render.page_resolution)
    ∧ image_size (resize blank Render.page_resolution) = (210, 298)%N
    ∧ ∀ j, j < length pages →
        ∃ img, fs' !! image_png j = Some img ∧ image_size img = (210, 298)%N.
Proof.
  intros Hlong Hblank Hpage Hnone.
  rewrite (run_tabulated_long pages fs Hlong). unfold Render.visualize.
  rewrite document_strip_Ok.
  2:{ rewrite page_statistics_map, length_map.
      eapply Nat.le_lt_trans; [apply Nat.le_0_l|exact (lookup_lt_Some _ _ _ Hpage)]. }
  cbn [mbind result_bind]. unfold savefig.
  set (fs0 := <[overview_png := _]> fs).
  assert (fs0 !! blank_png = Some blank) as Hblank0.
  { unfold fs0. rewrite lookup_insert_ne by apply overview_ne_blank. exact Hblank. }
  destruct (render_pages_spec 0 pages fs0 blank Hblank0) as (fs1 & Hrun1 & Hpages & Hsame).
  rewrite Hrun1. simpl.
  assert (is_Some (fs1 !! overview_png)) as Hoverview.
  { rewrite Hsame.
    - unfold fs0. rewrite lookup_insert_eq. eauto.
    - intros [H|(j & _ & [H|H])]; symmetry in H; revert H.
      + apply concat_ne_overview.
      + apply temp_ne_overview.
      + apply image_ne_overview. }
  destruct (resize_images_spec fs1 Hoverview) as (fs' & Hrun & Hresized).
  exists fs'. split; [exact Hrun|]. split; [|split; [apply image_size_resize|]].
  - rewrite Hresized. destruct (Hpages i [] Hpage) as [Himg _].
    simpl in Himg. rewrite Himg. simpl.
    unfold fs0. rewrite lookup_insert_ne by (apply not_eq_sym, temp_ne_overview).
    rewrite Hnone. reflexivity.
  - intros j Hj. apply lookup_lt_is_Some_2 in Hj as [page Hj].
    rewrite Hresized. destruct (Hpages j page Hj) as [Himg _].
    simpl in Himg. rewrite Himg. simpl.
    eexists. split; [reflexivity|]. apply image_size_resize.
Qed.

Lemma blank_page_gets_placeholder_witness :
  let fs : files := {[ blank_png := OnDisk "blank" (420, 596)%N ]} in
  let text : FloatFrame := [[Fin (9 # 10); Fin (4 # 5)]; [Fin (19 # 20); NaN]] in
  let pages := [text; []; text; text; []; text; text; text; text; text] in
  ∃ fs', run_tabulated pages fs = Ok fs'
         ∧ fs' !! image_png 1
           = Some (BoxResampled (OnDisk "blank" (420, 596)%N) (210, 298)%N).
Proof.
  intros fs text pages.
  destruct (blank_page_gets_placeholder pages fs (OnDisk "blank" (420, 596)%N) 1)
    as (fs' & Hrun & Himg & _); [simpl; lia|reflexivity..|].
  exists fs'. split; [exact Hrun|exact Himg].
Defined.

(** C7 as stated fails when the scratch directory still holds a file under
    the number of the page: a document of nine pages whose first page has
    no lines, the blank image on disk, and a stale [0.png] in the scratch
    directory.  The run reaches the end, and the stale file is moved to the
    images, not the blank one. *)
Lemma stale_scratch_file_wins :
  let stale := OnDisk "stale" (1000, 200)%N in
  let fs : files := {[ blank_png := OnDisk "blank" (210, 298)%N; temp_png 0 := stale ]} in
  let text : FloatFrame := [[Fin (1 # 2)]] in
  let pages := [[]; text; text; text; text; text; text; text; text] in
  pages !! 0 = Some []
  ∧ (∃ fs', run_tabulated pages fs = Ok fs'
            ∧ fs' !! image_png 0 = Some (BoxResampled stale (210, 298)%N))
  ∧ ¬ placeholder_written pages fs 0.
Proof.
  intros stale fs text pages.
  assert (match run_tabulated pages fs with
          | Ok fs' => fs' !! image_png 0
          | Raise _ => None
          end = Some (BoxResampled stale (210, 298)%N)) as Hrun'
    by (vm_compute; reflexivity).
  split; [reflexivity|]. split.
  - destruct (run_tabulated pages fs) as [fs'|e]; [|discriminate Hrun'].
    exists fs'. split; [reflexivity|exact Hrun'].
  - intros H.
    destruct (H (OnDisk "blank" (210, 298)%N)) as (fs' & Hrun & Himg); [reflexivity|].
    rewrite Hrun, Himg in Hrun'. clear Hrun Himg H. discriminate Hrun'.
Qed.

(** ** Claim on the download *)

(** C9.  When [download_file] ends in the HTTP error of [raise_for_status],
    the file it opened for writing is there, empty, and one request has been
    made.  A later [download_if_not_exists] for the same path, whatever the
    remote side would answer, reports the local copy: no error, no request,
    the files unchanged. *)
Theorem failed_download_leaves_file (net : Fetch.remote) (filename url : string)
    (w w' : Fetch.world) (status : Z) :
  Fetch.download_file net filename url w = (Raise (HTTPError status), w') →
  Fetch.files w' !! filename = Some []
  ∧ Fetch.requests w' = Fetch.requests w ++ [url]
  ∧ ∀ (net' : Fetch.remote) (url' : string),
      ∃ w'', Fetch.download_if_not_exists net' filename url' w' = (Ok (), w'')
             ∧ Fetch.requests w'' = Fetch.requests w'
             ∧ Fetch.files w'' = Fetch.files w'
             ∧ Fetch.stdout w''
               = Fetch.stdout w' +:+ "Using local copy: " +:+ filename
                   +:+ String (ascii_of_nat 10) "".
Proof.
  unfold Fetch.download_file, Fetch.open_wb. intros Hrun.
  destruct (bool_decide (filename ∈ Fetch.dirs w)); [discriminate|].
  destruct (bool_decide (Fetch.dirname filename = "")
            || bool_decide (Fetch.dirname filename ∈ Fetch.dirs w)); [|discriminate].
  destruct (net url) as [|status_code blocks complete]; [discriminate|].
  destruct (Fetch.is_error_status status_code).
  2:{ destruct complete; discriminate. }
  injection Hrun as _ <-. simpl.
  split; [apply lookup_insert_eq|]. split; [reflexivity|].
  intros net' url'. unfold Fetch.download_if_not_exists, Fetch.path_exists. simpl.
  rewrite lookup_insert_eq.
  rewrite bool_decide_eq_true_2 by eauto. simpl.
  eexists. repeat split.
Qed.

Lemma failed_download_leaves_file_witness :
  let w := {| Fetch.files := ∅; Fetch.dirs := {[ "PPN86268370X/alto" ]};
              Fetch.requests := []; Fetch.stdout := "" |} in
  let net : Fetch.remote := fun _ => Fetch.Response 404 [] true in
  let filename := "PPN86268370X/alto/00000001.xml" in
  ∃ w', Fetch.download_file net filename "https://img.sub.uni-hamburg.de/x" w
        = (Raise (HTTPError 404), w')
        ∧ Fetch.files w' !! filename = Some [].
Proof.
  intros w net filename. eexists. split; [reflexivity|].
  eapply (failed_download_leaves_file net filename _ w _ 404). reflexivity.
Defined.

(** * Further properties of the script *)

(** ** The images of the pages *)

Lemma image_size_stack_lines base rows :
  image_size (stack_lines base rows)
  = (fst (image_size base), snd (image_size base) + 100 * N.of_nat (length rows))%N.
Proof.
  revert base. induction rows as [|row rest IH]; intros base.
  - simpl. rewrite N.add_0_r. destruct (image_size base); reflexivity.
  - cbn [stack_lines fold_left]. fold (stack_lines (get_concat_v base (Savefig (Plot.warming_stripe row))) rest).
    rewrite IH. cbn [get_concat_v image_size fst snd Plot.figsize Plot.warming_stripe].
    f_equal. cbn [length]. unfold dpi. lia.
Qed.

Lemma strips_stack_lines base rows :
  strips (stack_lines base rows) = strips base ++ map Plot.warming_stripe rows.
Proof.
  revert base. induction rows as [|row rest IH]; intros base.
  - simpl. rewrite app_nil_r. reflexivity.
  - cbn [stack_lines fold_left]. fold (stack_lines (get_concat_v base (Savefig (Plot.warming_stripe row))) rest).
    rewrite IH. cbn [get_concat_v strips map]. rewrite <- app_assoc. reflexivity.
Qed.

(** The image of a page with lines is 1000 pixels wide and 100 pixels high
    for each of its lines, lines without a value included. *)
Theorem page_image_grows_with_lines (pages : list FloatFrame) (fs : files)
    (blank : image) (i : nat) (page : FloatFrame) :
  fs !! blank_png = Some blank →
  pages !! i = Some page →
  page ≠ [] →
  ∃ fs' img,
    Render.render_pages 0 pages fs = Ok fs'
    ∧ fs' !! image_png i = Some img
    ∧ image_size img = (1000, 100 * N.of_nat (length page))%N.
Proof.
  intros Hblank Hpage Hlines.
  destruct (render_pages_spec 0 pages fs blank Hblank) as (fs' & Hrun & Hpages & _).
  destruct (Hpages i page Hpage) as [Himg _]. simpl in Himg.
  destruct page as [|row rest]; [contradiction|].
  eexists fs', _. split; [exact Hrun|]. split; [exact Himg|].
  unfold page_image, composite. rewrite image_size_stack_lines.
  cbn [image_size fst snd Plot.figsize Plot.warming_stripe length]. unfold dpi.
  f_equal. lia.
Qed.

Lemma page_image_grows_with_lines_witness :
  let fs : files := {[ blank_png := OnDisk "blank" (210, 298)%N ]} in
  ∃ fs' img,
    Render.render_pages 0 [[]; [[Fin (1 # 2)]; []; [NaN]]] fs = Ok fs'
    ∧ fs' !! image_png 1 = Some img
    ∧ image_size img = (1000, 300)%N.
Proof.
  intros fs.
  apply (page_image_grows_with_lines [[]; [[Fin (1 # 2)]; []; [NaN]]] fs
           (OnDisk "blank" (210, 298)%N) 1 [[Fin (1 # 2)]; []; [NaN]]);
    [reflexivity|reflexivity|discriminate].
Defined.

(** The image of a page shows its lines from top to bottom in the order of
    the page, one stripe for each line. *)
Theorem page_image_keeps_line_order (pages : list FloatFrame) (fs : files)
    (blank : image) (i : nat) (page : FloatFrame) :
  fs !! blank_png = Some blank →
  pages !! i = Some page →
  page ≠ [] →
  ∃ fs' img,
    Render.render_pages 0 pages fs = Ok fs'
    ∧ fs' !! image_png i = Some img
    ∧ strips img = map Plot.warming_stripe page.
Proof.
  intros Hblank Hpage Hlines.
  destruct (render_pages_spec 0 pages fs blank Hblank) as (fs' & Hrun & Hpages & _).
  destruct (Hpages i page Hpage) as [Himg _]. simpl in Himg.
  destruct page as [|row rest]; [contradiction|].
  eexists fs', _. split; [exact Hrun|]. split; [exact Himg|].
  unfold page_image, composite. rewrite strips_stack_lines. reflexivity.
Qed.

Lemma page_image_keeps_line_order_witness :
  let fs : files := {[ blank_png := OnDisk "blank" (210, 298)%N ]} in
  ∃ fs' img,
    Render.render_pages 0 [[[Fin (1 # 2)]; [Fin 1]]] fs = Ok fs'
    ∧ fs' !! image_png 0 = Some img
    ∧ strips img = [Plot.warming_stripe [Fin (1 # 2)]; Plot.warming_stripe [Fin 1]].
Proof.
  intros fs.
  apply (page_image_keeps_line_order [[[Fin (1 # 2)]; [Fin 1]]] fs
           (OnDisk "blank" (210, 298)%N) 0 [[Fin (1 # 2)]; [Fin 1]]);
    [reflexivity|reflexivity|discriminate].
Defined.

Lemma render_page_clears i page (fs fs' : files) :
  Render.render_page i page fs = Ok fs' → fs' !! temp_png i = None.
Proof.
  unfold Render.render_page.
  destruct (render_lines_spec i page fs) as (fs1 & -> & _ & _). simpl.
  intros Hstore. apply store_page_frame in Hstore as [Hnone _]. exact Hnone.
Qed.

Lemma temp_outside_later_pages (k n j : nat) :
  (j <= k)%nat → ¬ pages_paths (S k) n (temp_png j).
Proof.
  intros Hj [H|(j' & _ & [H|H])].
  - revert H. apply temp_ne_concat.
  - apply temp_png_inj in H. lia.
  - revert H. apply temp_ne_image.
Qed.

Lemma render_pages_clears k pages (fs fs' : files) j :
  Render.render_pages k pages fs = Ok fs' →
  j < length pages → fs' !! temp_png (k + j) = None.
Proof.
  revert k fs j. induction pages as [|page rest IH]; intros k fs j; simpl; [lia|].
  destruct (Render.render_page k page fs) as [fs1|e] eqn:Hpage; simpl; [|discriminate].
  intros Hrest Hj. destruct j as [|j].
  - rewrite Nat.add_0_r.
    rewrite (render_pages_frame _ _ _ _ Hrest) by (apply temp_outside_later_pages; lia).
    apply (render_page_clears _ _ _ _ Hpage).
  - replace (k + S j) with (S k + j) by lia. apply (IH _ _ _ Hrest). lia.
Qed.

(** When the loop over the pages ends, the scratch directory holds no file
    under the number of any page: each was moved to the images, also one
    that was left there before the run. *)
Theorem scratch_holds_no_page_after_run (pages : list FloatFrame) (fs fs' : files)
    (i : nat) :
  Render.render_pages 0 pages fs = Ok fs' →
  i < length pages →
  fs' !! temp_png i = None.
Proof. intros Hrun Hi. apply (render_pages_clears 0 pages fs fs' i Hrun Hi). Qed.

Lemma scratch_holds_no_page_after_run_witness :
  let fs : files := {[ temp_png 0 := OnDisk "stale" (1000, 200)%N ]} in
  ∃ fs', Render.render_pages 0 [[]; [[Fin (1 # 2)]; [Fin 1]]] fs = Ok fs'
         ∧ fs' !! temp_png 0 = None ∧ fs' !! temp_png 1 = None.
Proof.
  intros fs. eexists. split; [vm_compute; reflexivity|].
  split; eapply (scratch_holds_no_page_after_run [[]; [[Fin (1 # 2)]; [Fin 1]]] fs);
    solve [vm_compute; reflexivity | simpl; lia].
Defined.

(** The images of the pages after the loop do not depend on what the images
    directory held before: two runs that start from the same blank image and
    the same scratch files end with the same image under every page number. *)
Theorem run_overwrites_old_images (pages : list FloatFrame) (fs1 fs2 : files)
    (blank : image) :
  fs1 !! blank_png = Some blank →
  fs2 !! blank_png = Some blank →
  (∀ i, fs1 !! temp_png i = fs2 !! temp_png i) →
  ∃ fs1' fs2',
    Render.render_pages 0 pages fs1 = Ok fs1'
    ∧ Render.render_pages 0 pages fs2 = Ok fs2'
    ∧ ∀ i, i < length pages →
        is_Some (fs1' !! image_png i) ∧ fs1' !! image_png i = fs2' !! image_png i.
Proof.
  intros Hblank1 Hblank2 Htemp.
  destruct (render_pages_spec 0 pages fs1 blank Hblank1) as (fs1' & Hrun1 & Hpages1 & _).
  destruct (render_pages_spec 0 pages fs2 blank Hblank2) as (fs2' & Hrun2 & Hpages2 & _).
  exists fs1', fs2'. split; [exact Hrun1|]. split; [exact Hrun2|].
  intros i Hi. apply lookup_lt_is_Some_2 in Hi as [page Hpage].
  destruct (Hpages1 i page Hpage) as [H1 _]. destruct (Hpages2 i page Hpage) as [H2 _].
  simpl in H1, H2. rewrite H1, H2, Htemp. eauto.
Qed.

Lemma run_overwrites_old_images_witness :
  let blank := OnDisk "blank" (210, 298)%N in
  let fs1 : files := {[ blank_png := blank ]} in
  let fs2 : files := {[ blank_png := blank; image_png 0 := OnDisk "old" (210, 298)%N ]} in
  ∃ fs1' fs2',
    Render.render_pages 0 [[[Fin (1 # 2)]]] fs1 = Ok fs1'
    ∧ Render.render_pages 0 [[[Fin (1 # 2)]]] fs2 = Ok fs2'
    ∧ fs1' !! image_png 0 = fs2' !! image_png 0.
Proof.
  intros blank fs1 fs2.
  destruct (run_overwrites_old_images [[[Fin (1 # 2)]]] fs1 fs2 blank)
    as (fs1' & fs2' & H1 & H2 & Hall).
  - reflexivity.
  - reflexivity.
  - intros i. vm_compute. reflexivity.
  - exists fs1', fs2'. split; [exact H1|]. split; [exact H2|].
    apply (Hall 0). simpl. lia.
Defined.

Lemma render_page_error i page (fs : files) e :
  Render.render_page i page fs = Raise e → e = FileNotFoundError blank_png.
Proof.
  unfold Render.render_page.
  destruct (render_lines_spec i page fs) as (fs1 & -> & _ & _). simpl.
  destruct (fs1 !! temp_png i) as [c|] eqn:Htemp.
  - rewrite (store_page_Some _ _ _ Htemp).
    destruct (move_composite_spec i fs1 c Htemp) as (fs2 & -> & _). discriminate.
  - rewrite (store_page_None _ _ Htemp).
    pose proof (use_blank_cases i fs1) as H.
    destruct (fs1 !! blank_png).
    + destruct H as (fs2 & -> & _). discriminate.
    + rewrite H. intros [= <-]. reflexivity.
Qed.

Lemma missing_blank_from k pages (fs : files) i :
  fs !! blank_png = None →
  pages !! i = Some [] →
  fs !! temp_png (k + i) = None →
  Render.render_pages k pages fs = Raise (FileNotFoundError blank_png).
Proof.
  revert k fs i. induction pages as [|page rest IH]; intros k fs i Hblank Hpage Hnone;
    [discriminate|].
  simpl. destruct i as [|i]; simpl in Hpage.
  - injection Hpage as ->. rewrite Nat.add_0_r in Hnone.
    unfold Render.render_page. simpl. rewrite (store_page_None _ _ Hnone).
    pose proof (use_blank_cases k fs) as H. rewrite Hblank in H. rewrite H. reflexivity.
  - destruct (Render.render_page k page fs) as [fs1|e] eqn:Hrun; simpl.
    + pose proof (render_page_frame _ _ _ _ Hrun) as Hsame.
      apply (IH (S k) fs1 i); [|exact Hpage|].
      * rewrite Hsame; [exact Hblank|]. unfold page_paths.
        intros [H|[H|H]]; symmetry in H; revert H;
          [apply temp_ne_blank|apply image_ne_blank|apply concat_ne_blank].
      * replace (S k + i) with (k + S i) by lia.
        rewrite Hsame; [exact Hnone|]. unfold page_paths. intros [H|[H|H]].
        -- apply temp_png_inj in H. lia.
        -- revert H. apply temp_ne_image.
        -- revert H. apply temp_ne_concat.
    + rewrite (render_page_error _ _ _ _ Hrun). reflexivity.
Qed.

(** Without the blank image on disk, a document with a page without lines
    (and nothing left under its number in the scratch directory) cannot be
    drawn: the loop over the pages stops with [FileNotFoundError] for
    [ocapy/blank.png]. *)
Theorem missing_blank_stops_run (pages : list FloatFrame) (fs : files) (i : nat) :
  fs !! blank_png = None →
  pages !! i = Some [] →
  fs !! temp_png i = None →
  Render.render_pages 0 pages fs = Raise (FileNotFoundError blank_png).
Proof. intros Hblank Hpage Hnone. apply (missing_blank_from 0 pages fs i); assumption. Qed.

Lemma missing_blank_stops_run_witness :
  Render.render_pages 0 [[[Fin (1 # 2)]]; []] ∅ = Raise (FileNotFoundError blank_png).
Proof.
  apply (missing_blank_stops_run [[[Fin (1 # 2)]]; []] ∅ 1); reflexivity.
Defined.

(** ** The resize pass over the images directory *)

Lemma resize_loop_listdir (fs : files) :
  ∃ fs1, Render.resize_loop (listdir images_dir fs) fs = Ok fs1
         ∧ (∀ name, fs1 !! (images_dir +:+ name)
                    = to_page_resolution <$> fs !! (images_dir +:+ name))
         ∧ (∀ p, (∀ name, p ≠ images_dir +:+ name) → fs1 !! p = fs !! p).
Proof.
  destruct (resize_loop_spec (listdir images_dir fs) fs) as (fs1 & Hrun & Hin & Hout).
  { apply NoDup_listdir. }
  { intros name. apply elem_of_listdir. }
  exists fs1. split; [exact Hrun|]. split.
  - intros name. destruct (fs !! (images_dir +:+ name)) as [img|] eqn:E.
    + rewrite Hin by (apply elem_of_listdir; eauto). rewrite E. reflexivity.
    + simpl. rewrite Hout; [exact E|].
      intros name' Hname' Heq. apply elem_of_listdir in Hname' as [? Hname'].
      rewrite <- Heq in Hname'. congruence.
  - intros p Hp. apply Hout. intros name _. apply Hp.
Qed.

(** The resize pass reaches every file of the images directory, whatever
    its name: each comes out at 210x298, except the overview.  No file
    outside the directory is touched and none is created. *)
Theorem resize_pass_covers_directory (fs : files) :
  is_Some (fs !! overview_png) →
  ∃ fs',
    Render.resize_images fs = Ok fs'
    ∧ (∀ name img,
         images_dir +:+ name ≠ overview_png →
         fs !! (images_dir +:+ name) = Some img →
         fs' !! (images_dir +:+ name) = Some (resize img Render.page_resolution)
         ∧ image_size (resize img Render.page_resolution) = (210, 298)%N)
    ∧ (∀ p, (∀ name, p ≠ images_dir +:+ name) → fs' !! p = fs !! p)
    ∧ (∀ p, fs !! p = None → fs' !! p = None).
Proof.
  intros [overview Hoverview]. unfold Render.resize_images.
  destruct (resize_loop_listdir fs) as (fs1 & -> & Hin & Hout). simpl.
  unfold Image_open, save.
  assert (fs1 !! overview_png = Some (to_page_resolution overview)) as Hfs1.
  { unfold overview_png in *. rewrite Hin, Hoverview. reflexivity. }
  rewrite Hfs1. simpl. eexists. split; [reflexivity|]. split; [|split].
  - intros name img Hne Himg.
    rewrite lookup_insert_ne by (apply not_eq_sym, Hne).
    rewrite Hin, Himg. split; [reflexivity|apply image_size_resize].
  - intros p Hp. rewrite lookup_insert_ne by (apply not_eq_sym, Hp). apply Hout, Hp.
  - intros p Hp. rewrite lookup_insert_ne by (intros <-; congruence).
    destruct (strip_prefix images_dir p) as [name|] eqn:E.
    + apply strip_prefix_Some in E as ->. rewrite Hin, Hp. reflexivity.
    + rewrite Hout; [exact Hp|]. intros name ->.
      assert (strip_prefix images_dir (images_dir +:+ name) = Some name) as E'
        by (apply strip_prefix_Some; reflexivity).
      congruence.
Qed.

Lemma resize_pass_covers_directory_witness :
  let fs : files :=
    {[ overview_png := Savefig (Plot.warming_stripe [Fin (1 # 2)]);
       images_dir +:+ record_id +:+ "_displot.png" := OnDisk "displot" (1200, 300)%N;
       blank_png := OnDisk "blank" (420, 596)%N ]} in
  ∃ fs',
    Render.resize_images fs = Ok fs'
    ∧ fs' !! (images_dir +:+ record_id +:+ "_displot.png")
      = Some (BoxResampled (OnDisk "displot" (1200, 300)%N) (210, 298)%N)
    ∧ fs' !! blank_png = Some (OnDisk "blank" (420, 596)%N).
Proof.
  intros fs.
  destruct (resize_pass_covers_directory fs) as (fs' & Hrun & Hin & Hout & _).
  { vm_compute. eauto. }
  exists fs'. split; [exact Hrun|]. split.
  - apply (Hin (record_id +:+ "_displot.png") (OnDisk "displot" (1200, 300)%N));
      [discriminate|reflexivity].
  - rewrite Hout; [reflexivity|]. intros name. discriminate.
Defined.

(** The overview is resized with the other files first and then once more:
    what ends up on disk at 420x595 is resampled from the 210x298 image, not
    from the figure that was saved. *)
Theorem overview_is_resampled_twice (fs : files) (img : image) :
  fs !! overview_png = Some img →
  ∃ fs',
    Render.resize_images fs = Ok fs'
    ∧ fs' !! overview_png
      = Some (resize (resize img Render.page_resolution) Render.overview_resolution)
    ∧ resize (resize img Render.page_resolution) Render.overview_resolution
      = BoxResampled (resize img Render.page_resolution) (420, 595)%N
    ∧ (image_size img ≠ Render.page_resolution →
       resize img Render.page_resolution = BoxResampled img (210, 298)%N).
Proof.
  intros Hoverview. unfold Render.resize_images.
  destruct (resize_loop_listdir fs) as (fs1 & -> & Hin & _). simpl.
  unfold Image_open, save.
  assert (fs1 !! overview_png = Some (to_page_resolution img)) as Hfs1.
  { unfold overview_png in *. rewrite Hin, Hoverview. reflexivity. }
  rewrite Hfs1. simpl. eexists. split; [reflexivity|].
  split; [apply lookup_insert_eq|]. split.
  - unfold resize at 1. rewrite image_size_resize.
    rewrite decide_False by discriminate. reflexivity.
  - intros Hsize. unfold resize. rewrite decide_False by exact Hsize. reflexivity.
Qed.

Lemma overview_is_resampled_twice_witness :
  let strip := Savefig (Plot.warming_stripe [Fin (1 # 2)]) in
  let fs : files := {[ overview_png := strip ]} in
  ∃ fs',
    Render.resize_images fs = Ok fs'
    ∧ fs' !! overview_png
      = Some (BoxResampled (BoxResampled strip (210, 298)%N) (420, 595)%N).
Proof.
  intros strip fs.
  destruct (overview_is_resampled_twice fs strip) as (fs' & Hrun & Himg & _);
    [reflexivity|].
  exists fs'. split; [exact Hrun|]. rewrite Himg. reflexivity.
Defined.

(** Without the overview image the resize pass fails, with
    [FileNotFoundError], after the loop over the directory. *)
Theorem resize_pass_needs_overview (fs : files) :
  fs !! overview_png = None →
  Render.resize_images fs = Raise (FileNotFoundError overview_png).
Proof.
  intros Hnone. unfold Render.resize_images.
  destruct (resize_loop_listdir fs) as (fs1 & -> & Hin & _). simpl.
  unfold Image_open.
  assert (fs1 !! overview_png = None) as ->.
  { unfold overview_png in *. rewrite Hin, Hnone. reflexivity. }
  reflexivity.
Qed.

Lemma resize_pass_needs_overview_witness :
  Render.resize_images {[ image_png 0 := OnDisk "page" (1000, 100)%N ]}
  = Raise (FileNotFoundError overview_png).
Proof.
  apply (resize_pass_needs_overview {[ image_png 0 := OnDisk "page" (1000, 100)%N ]}).
  reflexivity.
Defined.

(** ** Colours of the stripes *)

Lemma clim_unit (q : Q) : ((q - 0) / (1 - 0) == q)%Q.
Proof. field. Qed.

Lemma to_lut_unit_cases (q : Q) :
  (0 <= q)%Q → (q <= 1)%Q →
  (q == 1)%Q ∧ Plot.to_lut (0, 1)%Q (Fin q) = Plot.Entry 255
  ∨ (q < 1)%Q ∧ Plot.to_lut (0, 1)%Q (Fin q) = Plot.Entry (Qfloor (q * 256)).
Proof.
  intros H0 H1. cbn [Plot.to_lut].
  destruct (Qeq_bool ((q - 0) / (1 - 0)) 1) eqn:E.
  - left. apply Qeq_bool_eq in E. rewrite clim_unit in E. auto.
  - right. assert (¬ (q == 1)%Q) as Hne.
    { intros H. apply Qeq_bool_neq in E. apply E. rewrite clim_unit. exact H. }
    split; [apply Qle_lteq in H1 as [H1|H1]; [exact H1|contradiction]|].
    assert (Qle_bool 0 ((q - 0) / (1 - 0)) = true) as ->.
    { apply Qle_bool_iff. rewrite clim_unit. exact H0. }
    assert (Qle_bool ((q - 0) / (1 - 0)) 1 = true) as ->.
    { apply Qle_bool_iff. rewrite clim_unit. exact H1. }
    cbn [negb]. f_equal. apply Qfloor_comp. rewrite clim_unit. reflexivity.
Qed.

Lemma Qfloor_unit_range (q : Q) :
  (0 <= q)%Q → (q < 1)%Q → (0 <= Qfloor (q * 256) <= 255)%Z.
Proof.
  intros H0 H1. split.
  - change 0%Z with (Qfloor (inject_Z 0)). apply Qfloor_resp_le.
    change (inject_Z 0) with (0 * 256)%Q. apply Qmult_le_compat_r; [exact H0|discriminate].
  - assert (Qfloor (q * 256) < 256)%Z; [|lia].
    rewrite Zlt_Qlt. eapply Qle_lt_trans; [apply Qfloor_le|].
    change (inject_Z 256) with (1 * 256)%Q. apply Qmult_lt_compat_r; [reflexivity|exact H1].
Qed.

(** With the limits the script sets, a confidence between 0 and 1 is drawn
    with an entry of the colour table, 0 with the first and 1 with the last
    of its 256 entries, never with the colours for values below or above the
    limits; and a higher confidence never gets a lower entry. *)
Theorem confidence_uses_the_colour_table (q1 q2 : Q) :
  (0 <= q1)%Q → (q1 <= q2)%Q → (q2 <= 1)%Q →
  ∃ i1 i2 : Z,
    Plot.to_lut (0, 1)%Q (Fin q1) = Plot.Entry i1
    ∧ Plot.to_lut (0, 1)%Q (Fin q2) = Plot.Entry i2
    ∧ (0 <= i1)%Z ∧ (i1 <= i2)%Z ∧ (i2 <= 255)%Z
    ∧ Plot.to_lut (0, 1)%Q (Fin 0) = Plot.Entry 0
    ∧ Plot.to_lut (0, 1)%Q (Fin 1) = Plot.Entry 255.
Proof.
  intros H0 H12 H1.
  assert (q1 <= 1)%Q as H1' by (eapply Qle_trans; eauto).
  assert (0 <= q2)%Q as H0' by (eapply Qle_trans; eauto).
  destruct (to_lut_unit_cases q1 H0 H1') as [[E1 ->]|[L1 ->]];
    destruct (to_lut_unit_cases q2 H0' H1) as [[E2 ->]|[L2 ->]].
  - exists 255%Z, 255%Z. repeat split; lia.
  - exfalso. rewrite E1 in H12. apply (Qlt_not_le _ _ L2 H12).
  - pose proof (Qfloor_unit_range q1 H0 L1).
    eexists _, 255%Z. repeat split; lia.
  - pose proof (Qfloor_unit_range q1 H0 L1). pose proof (Qfloor_unit_range q2 H0' L2).
    eexists _, _. repeat split; try lia.
    apply Qfloor_resp_le. apply Qmult_le_compat_r; [exact H12|discriminate].
Qed.

Lemma confidence_uses_the_colour_table_witness :
  Plot.to_lut (0, 1)%Q (Fin (1 # 2)) = Plot.Entry 128
  ∧ ∃ i1 i2 : Z,
      Plot.to_lut (0, 1)%Q (Fin (1 # 2)) = Plot.Entry i1
      ∧ Plot.to_lut (0, 1)%Q (Fin (9 # 10)) = Plot.Entry i2 ∧ (i1 <= i2)%Z.
Proof.
  split; [reflexivity|].
  destruct (confidence_uses_the_colour_table (1 # 2) (9 # 10))
    as (i1 & i2 & H1 & H2 & _ & H12 & _); [discriminate..|].
  exists i1, i2. auto.
Defined.

(** The cells of a stripe follow the values of the line that are not
    missing: cell [j] has the colour of the [j]-th such value, so that after
    a missing value the cells no longer stand at the positions of the words. *)
Theorem cell_shows_jth_value (row : Stats.Series) (j : nat) (x : pyfloat) :
  Stats.dropna row !! j = Some x →
  Plot.facecolor (Plot.warming_stripe row) j = Some (Plot.to_lut (0, 1)%Q x)
  ∧ Plot.patches (Plot.warming_stripe row) !! j
    = Some {| Plot.xy := (j, 0); Plot.width := 1; Plot.height := 1 |}.
Proof.
  intros Hj. pose proof (lookup_lt_Some _ _ _ Hj) as Hlt. split.
  - unfold Plot.facecolor. cbn [Plot.array Plot.clim Plot.warming_stripe].
    destruct (Stats.dropna row) as [|x0 values] eqn:E; [discriminate|].
    rewrite Nat.mod_small by exact Hlt. rewrite Hj. reflexivity.
  - cbn [Plot.patches Plot.warming_stripe].
    rewrite list_lookup_fmap, lookup_seq_lt by lia. reflexivity.
Qed.

Lemma cell_shows_jth_value_witness :
  Plot.facecolor (Plot.warming_stripe [Fin (1 # 2); NaN; Fin 1]) 1 = Some (Plot.Entry 255).
Proof.
  apply (cell_shows_jth_value [Fin (1 # 2); NaN; Fin 1] 1 (Fin 1)). reflexivity.
Defined.

(** ** Which statistics are missing *)

Lemma confidence_is_finite (x : pyfloat) :
  confidence_or_missing x → finite_or_missing x.
Proof. intros [->|(q & -> & _)]; [left; reflexivity|right; eauto]. Qed.

Lemma confidences_are_finite (item : FloatFrame) :
  Forall (Forall confidence_or_missing) item → Forall (Forall finite_or_missing) item.
Proof.
  intros H. eapply Forall_impl; [exact H|]. intros row Hrow.
  eapply Forall_impl; [exact Hrow|]. exact confidence_is_finite.
Qed.

Lemma stack_values item x :
  Forall (Forall finite_or_missing) item → x ∈ Stats.stack item → ∃ q, x = Fin q.
Proof.
  intros Hitem Hx. unfold Stats.stack in Hx.
  apply list_elem_of_filter in Hx as [Hnotna Hx].
  apply list_elem_of_In, in_concat in Hx as (row & Hrow & Hxrow).
  apply list_elem_of_In in Hrow, Hxrow.
  rewrite Forall_forall in Hitem. specialize (Hitem _ Hrow).
  rewrite Forall_forall in Hitem. destruct (Hitem _ Hxrow) as [->|Hq]; [discriminate|exact Hq].
Qed.

Lemma sum_from_finite (xs : list pyfloat) (a : Q) :
  Forall (fun x => ∃ q, x = Fin q) xs → ∃ q, fold_left Stats.add xs (Fin a) = Fin q.
Proof.
  intros H. revert a. induction H as [|x xs [q ->] _ IH]; intros a; simpl; eauto.
Qed.

Lemma dropna_finite (values : list pyfloat) :
  Forall (fun x => ∃ q, x = Fin q) values → Stats.dropna values = values.
Proof.
  unfold Stats.dropna, Stats.Series. induction values as [|x xs IH]; intros H; [reflexivity|].
  apply Forall_cons in H as [[q ->] Hxs].
  rewrite filter_cons_True by reflexivity. f_equal. apply IH, Hxs.
Qed.

Lemma mean_finite (values : list pyfloat) :
  Forall (fun x => ∃ q, x = Fin q) values → values ≠ [] →
  Stats.dropna values = values ∧ ∃ q, Stats.mean values = Fin q.
Proof.
  intros Hfin Hne. pose proof (dropna_finite values Hfin) as Hdrop.
  split; [exact Hdrop|]. unfold Stats.mean. rewrite Hdrop.
  destruct values as [|x xs]; [contradiction|].
  destruct (sum_from_finite (x :: xs) 0 Hfin) as [q Hq].
  unfold Stats.sum. rewrite Hq. simpl. eauto.
Qed.

Lemma var_finite (values : list pyfloat) :
  Forall (fun x => ∃ q, x = Fin q) values → (2 <= length values)%nat →
  ∃ q, Stats.var values = Fin q.
Proof.
  intros Hfin Hlen. pose proof (dropna_finite values Hfin) as Hdrop.
  unfold Stats.var. rewrite Hdrop.
  destruct (length values <=? 1)%nat eqn:E; [apply Nat.leb_le in E; lia|].
  cbv zeta. unfold Stats.sum.
  destruct (sum_from_finite values 0 Hfin) as [s Hs]. rewrite !Hs.
  cbn [Stats.div_nat].
  match goal with
  | |- context [map ?f values] =>
      assert (Forall (fun x => ∃ q, x = Fin q) (map f values)) as Hsqr
  end.
  { apply Forall_fmap. eapply Forall_impl; [exact Hfin|].
    intros x [q ->]. simpl. eauto. }
  destruct (sum_from_finite _ 0 Hsqr) as [v Hv]. rewrite Hv.
  simpl. eauto.
Qed.

(** For a page whose values are confidences between 0 and 1, the mean is
    missing exactly when the page has no value at all, and the standard
    deviation exactly when it has fewer than two; the count is the number of
    values in both cases. *)
Theorem missing_statistics (item : FloatFrame) :
  Forall (Forall confidence_or_missing) item →
  let d := Stats.describe (Stats.stack item) in
  Stats.d_count d = Stats.of_nat (length (Stats.stack item))
  ∧ (isnan (Stats.d_mean d) = true ↔ length (Stats.stack item) = 0)
  ∧ (Stats.root_isnan (Stats.d_std d) = true ↔ (length (Stats.stack item) <= 1)%nat).
Proof.
  intros Hitem d. subst d. apply confidences_are_finite in Hitem.
  assert (Forall (fun x => ∃ q, x = Fin q) (Stats.stack item)) as Hfin.
  { apply Forall_forall. intros x Hx. eapply stack_values; eauto. }
  cbn [Stats.describe Stats.d_count Stats.d_mean Stats.d_std]. split; [|split].
  - unfold Stats.count. rewrite dropna_stack. reflexivity.
  - destruct (Stats.stack item) as [|x xs] eqn:E; [split; reflexivity|].
    destruct (mean_finite (x :: xs) Hfin) as [_ [q ->]]; [discriminate|].
    simpl. split; [discriminate|lia].
  - unfold Stats.std, Stats.root_isnan.
    destruct (le_lt_dec (length (Stats.stack item)) 1) as [Hle|Hgt].
    + split; [auto|]. intros _. unfold Stats.var. rewrite dropna_stack.
      apply Nat.leb_le in Hle. rewrite Hle. reflexivity.
    + destruct (var_finite _ Hfin) as [q ->]; [lia|]. simpl. split; [discriminate|lia].
Qed.

Lemma missing_statistics_witness :
  Stats.root_isnan (Stats.d_std (Stats.describe (Stats.stack [[Fin (1 # 2); NaN]]))) = true
  ∧ isnan (Stats.d_mean (Stats.describe (Stats.stack [[Fin (1 # 2); NaN]]))) = false.
Proof.
  assert (Forall (Forall confidence_or_missing) [[Fin (1 # 2); NaN]]) as H.
  { cells_by_cases. }
  destruct (missing_statistics [[Fin (1 # 2); NaN]] H) as (_ & Hmean & Hstd).
  split.
  - apply Hstd. simpl. lia.
  - reflexivity.
Defined.

Lemma filter_notna_means (pages : list FloatFrame) :
  Forall (Forall (Forall finite_or_missing)) pages →
  Stats.dropna (map (fun item => Stats.mean (Stats.stack item)) pages)
  = map (fun item => Stats.mean (Stats.stack item)) (pages_with_values pages).
Proof.
  unfold Stats.dropna, Stats.Series, pages_with_values.
  induction 1 as [|item pages Hitem _ IH]; [reflexivity|].
  cbn [map].
  assert (Forall (fun x => ∃ q, x = Fin q) (Stats.stack item)) as Hfin.
  { apply Forall_forall. intros x Hx. eapply stack_values; eauto. }
  destruct (decide (Stats.stack item = [])) as [E|Hne].
  - rewrite (filter_cons_False _ item) by (intros H; exact (H E)).
    rewrite (filter_cons_False _ (Stats.mean (Stats.stack item)))
      by (rewrite E; discriminate).
    exact IH.
  - rewrite (filter_cons_True _ item) by exact Hne.
    destruct (mean_finite (Stats.stack item) Hfin Hne) as [_ [q Hq]].
    rewrite (filter_cons_True _ (Stats.mean (Stats.stack item)))
      by (rewrite Hq; reflexivity).
    cbn [map]. f_equal. exact IH.
Qed.

(** On a document whose values are confidences between 0 and 1, the
    colours of the overview are the means of the pages that have a value, in
    page order: a page without values has no cell, so that the cells after
    it no longer stand at the numbers of their pages. *)
Theorem overview_skips_pages_without_values (pages : list FloatFrame) :
  Forall (Forall (Forall confidence_or_missing)) pages →
  Plot.array (Plot.warming_stripe (map Stats.d_mean (Stats.page_statistics pages)))
  = map (fun item => Stats.mean (Stats.stack item)) (pages_with_values pages).
Proof.
  intros Hpages. cbn [Plot.array Plot.warming_stripe].
  rewrite page_statistics_map, map_map. cbn [Stats.d_mean Stats.describe].
  apply filter_notna_means.
  eapply Forall_impl; [exact Hpages|]. exact confidences_are_finite.
Qed.

Lemma overview_skips_pages_without_values_witness :
  Plot.array (Plot.warming_stripe
                (map Stats.d_mean (Stats.page_statistics [[[Fin (1 # 2)]]; []; [[Fin 1]]])))
  = [Fin (1 # 2); Fin 1].
Proof.
  rewrite (overview_skips_pages_without_values [[[Fin (1 # 2)]]; []; [[Fin 1]]]).
  - vm_compute. reflexivity.
  - cells_by_cases.
Defined.

(** ** The tables *)

Lemma traverse_Forall2 {A B} (f : A → result B) l ys :
  traverse f l = Ok ys → Forall2 (fun x y => f x = Ok y) l ys.
Proof.
  revert ys. induction l as [|x l IH]; intros ys Hok.
  - injection Hok as <-. constructor.
  - apply traverse_Ok_cons in Hok as (y & ys' & -> & Hy & Hl). constructor; auto.
Qed.

Lemma astype_padded_row_Ok (line : list string) (k : nat) row :
  traverse cell_astype_float (map CStr line ++ replicate k CNone) = Ok row →
  ∃ values, traverse float line = Ok values
            ∧ length values = length line
            ∧ row = values ++ replicate k NaN.
Proof.
  rewrite astype_padded_row.
  destruct (traverse float line) as [values|e] eqn:E; simpl; [|discriminate].
  intros [= <-]. exists values. split; [reflexivity|]. split; [|reflexivity].
  symmetry. eapply Forall2_length, traverse_Forall2, E.
Qed.

(** The table of a page has one row for each line, and the row of a line is
    its confidences, in reading order, followed by NaN up to the length of
    the longest line of the page: nothing is cut off and nothing is moved. *)
Theorem table_row_is_padded_line (pages_wc : list (list (list string)))
    (pages_df_list : list FloatFrame) (p l : nat) (page : list (list string))
    (line : list string) :
  tabulate pages_wc = Ok pages_df_list →
  pages_wc !! p = Some page →
  page !! l = Some line →
  ∃ df values,
    pages_df_list !! p = Some df
    ∧ length df = length page
    ∧ traverse float line = Ok values
    ∧ length values = length line
    ∧ df !! l = Some (values ++ replicate (max_list (map length page) - length line) NaN).
Proof.
  rewrite tabulate_astype. intros Hok Hp Hl.
  destruct (traverse_lookup _ _ _ _ _ Hok Hp) as (df & Hdf & Hcast).
  unfold astype_float, make_DataFrame in Hcast. rewrite traverse_map in Hcast.
  apply traverse_Forall2 in Hcast.
  destruct (Forall2_lookup_l _ _ _ _ _ Hcast Hl) as (row & Hrow & Hcells).
  apply astype_padded_row_Ok in Hcells as (values & Hvalues & Hlen & ->).
  exists df, values. split; [exact Hdf|]. split; [|auto].
  symmetry. eapply Forall2_length, Hcast.
Qed.

Lemma table_row_is_padded_line_witness :
  ∃ df values,
    ([[[Fin (9 # 10); Fin (4 # 5)]; [Fin (19 # 20); NaN]]; []] : list FloatFrame) !! 0 = Some df
    ∧ length df = 2
    ∧ traverse float ["0.95"] = Ok values
    ∧ length values = 1
    ∧ df !! 1 = Some (values ++ replicate (2 - 1) NaN).
Proof.
  apply (table_row_is_padded_line [[["0.9"; "0.8"]; ["0.95"]]; []] _ 0 1
           [["0.9"; "0.8"]; ["0.95"]] ["0.95"]); reflexivity.
Defined.

(** The number of text lines recorded for a page is the number of its lines
    in the ALTO file, lines without words included. *)
Theorem textlines_counts_every_line (pages_wc : list (list (list string)))
    (pages_df_list : list FloatFrame) :
  tabulate pages_wc = Ok pages_df_list →
  Stats.textlines pages_df_list = map length pages_wc.
Proof.
  rewrite tabulate_astype. intros Hok. apply traverse_Forall2 in Hok.
  unfold Stats.textlines.
  induction Hok as [|page df pages dfs Hcast _ IH]; [reflexivity|].
  cbn [map]. f_equal; [|exact IH]. cbn [shape fst].
  unfold astype_float, make_DataFrame in Hcast. rewrite traverse_map in Hcast.
  symmetry. eapply Forall2_length, traverse_Forall2, Hcast.
Qed.

Lemma textlines_counts_every_line_witness :
  Stats.textlines [[[Fin (1 # 2)]; [NaN]; [NaN]]; []] = [3; 0].
Proof.
  apply (textlines_counts_every_line [[["0.5"]; []; ["nan"]]; []]). reflexivity.
Defined.

Lemma traverse_Ok_all {A B} (f : A → result B) l ys :
  traverse f l = Ok ys → Forall (fun x => ∃ y, f x = Ok y) l.
Proof.
  intros Hok. apply traverse_Forall2 in Hok.
  induction Hok; constructor; eauto.
Qed.

(** The tables are built if and only if every token of the document is a
    spelling that [float] accepts: one other token anywhere, and there is no
    table for any page. *)
Theorem tabulate_all_or_nothing (pages_wc : list (list (list string))) :
  (∃ pages_df_list, tabulate pages_wc = Ok pages_df_list) ↔ tokens_parse pages_wc.
Proof.
  split; [|apply tabulate_total].
  intros [dfs Hok]. rewrite tabulate_astype in Hok.
  apply traverse_Ok_all in Hok. unfold tokens_parse.
  eapply Forall_impl; [exact Hok|]. clear. intros page [df Hcast]. simpl in Hcast.
  unfold astype_float, make_DataFrame in Hcast. rewrite traverse_map in Hcast.
  apply traverse_Ok_all in Hcast.
  eapply Forall_impl; [exact Hcast|]. clear. intros line [row Hrow]. simpl in Hrow.
  apply astype_padded_row_Ok in Hrow as (values & Hvalues & _).
  eapply traverse_Ok_all, Hvalues.
Qed.

(** ** Downloads *)

Example basename_alto :
  Corpus.basename "https://img.sub.uni-hamburg.de/kitodo/PPN872169685_0021/00000053.xml"
  = "00000053.xml"
  ∧ Corpus.basename "plain" = "plain" ∧ Corpus.basename "a/b/" = "".
Proof. repeat split. Qed.

Lemma write_blocks filename blocks (w : Fetch.world) :
  let w' := fold_left (fun w block => Fetch.write filename block w) blocks w in
  Fetch.files w'
  = alter (fun content => content ++ concat blocks) filename (Fetch.files w)
  ∧ Fetch.dirs w' = Fetch.dirs w
  ∧ Fetch.requests w' = Fetch.requests w
  ∧ Fetch.stdout w' = Fetch.stdout w.
Proof.
  revert w. induction blocks as [|block blocks IH]; intros w; simpl.
  - repeat split. apply map_eq. intros p.
    destruct (decide (filename = p)) as [<-|Hne].
    + rewrite lookup_alter_eq.
      destruct (Fetch.files w !! filename); simpl; [rewrite app_nil_r|]; reflexivity.
    + rewrite lookup_alter_ne by exact Hne. reflexivity.
  - destruct (IH (Fetch.write filename block w)) as (Hf & Hd & Hr & Hs).
    rewrite Hf, Hd, Hr, Hs. simpl. repeat split.
    apply map_eq. intros p.
    destruct (decide (filename = p)) as [<-|Hne].
    + rewrite !lookup_alter_eq.
      destruct (Fetch.files w !! filename); simpl; [rewrite <- app_assoc|]; reflexivity.
    + rewrite !lookup_alter_ne by exact Hne. reflexivity.
Qed.

Lemma download_file_success (net : Fetch.remote) (filename url : string)
    (w : Fetch.world) (status_code : Z) (blocks : list (list Byte.byte)) :
  filename ∉ Fetch.dirs w →
  Fetch.dirname filename ∈ Fetch.dirs w →
  net url = Fetch.Response status_code blocks true →
  Fetch.is_error_status status_code = false →
  ∃ w',
    Fetch.download_file net filename url w = (Ok (), w')
    ∧ Fetch.files w' = <[filename := concat blocks]> (Fetch.files w)
    ∧ Fetch.dirs w' = Fetch.dirs w
    ∧ Fetch.requests w' = Fetch.requests w ++ [url]
    ∧ Fetch.stdout w' = Fetch.stdout w.
Proof.
  intros Hfile Hdir Hnet Hstatus. unfold Fetch.download_file, Fetch.open_wb.
  rewrite bool_decide_eq_false_2 by exact Hfile.
  rewrite (bool_decide_eq_true_2 (Fetch.dirname filename ∈ Fetch.dirs w)) by exact Hdir.
  rewrite orb_true_r. rewrite Hnet, Hstatus.
  match goal with
  | |- context [fold_left ?f blocks ?w0] =>
      destruct (write_blocks filename blocks w0) as (Hf & Hd & Hr & Hs)
  end.
  eexists. split; [reflexivity|]. rewrite Hf, Hd, Hr, Hs. simpl. repeat split.
  apply map_eq. intros p.
  destruct (decide (filename = p)) as [<-|Hne].
  - rewrite lookup_alter_eq, !lookup_insert_eq. reflexivity.
  - rewrite lookup_alter_ne, !lookup_insert_ne by exact Hne. reflexivity.
Qed.

(** A download that ends well leaves exactly the body of the answer in the
    file, whatever the file held before; one request is made, and no other
    file and no directory changes. *)
Theorem download_writes_the_body (net : Fetch.remote) (filename url : string)
    (w : Fetch.world) (status_code : Z) (blocks : list (list Byte.byte)) :
  filename ∉ Fetch.dirs w →
  Fetch.dirname filename ∈ Fetch.dirs w →
  net url = Fetch.Response status_code blocks true →
  Fetch.is_error_status status_code = false →
  ∃ w',
    Fetch.download_file net filename url w = (Ok (), w')
    ∧ Fetch.files w' = <[filename := concat blocks]> (Fetch.files w)
    ∧ Fetch.dirs w' = Fetch.dirs w
    ∧ Fetch.requests w' = Fetch.requests w ++ [url].
Proof.
  intros Hfile Hdir Hnet Hstatus.
  destruct (download_file_success net filename url w status_code blocks Hfile Hdir Hnet Hstatus)
    as (w' & Hrun & Hf & Hd & Hr & _).
  exists w'. auto.
Qed.

Lemma download_writes_the_body_witness :
  let w := {| Fetch.files := {[ "PPN86268370X/alto/00000001.xml" := [Byte.x78] ]};
              Fetch.dirs := {[ "PPN86268370X/alto" ]};
              Fetch.requests := []; Fetch.stdout := "" |} in
  let net : Fetch.remote := fun _ => Fetch.Response 200 [[Byte.x61]; [Byte.x62]] true in
  ∃ w', Fetch.download_file net "PPN86268370X/alto/00000001.xml" "u" w = (Ok (), w')
        ∧ Fetch.files w' !! "PPN86268370X/alto/00000001.xml" = Some [Byte.x61; Byte.x62].
Proof.
  intros w net.
  destruct (download_writes_the_body net "PPN86268370X/alto/00000001.xml" "u" w 200
              [[Byte.x61]; [Byte.x62]]) as (w' & Hrun & Hfiles & _).
  - by_evaluation.
  - by_evaluation.
  - reflexivity.
  - reflexivity.
  - exists w'. split; [exact Hrun|]. rewrite Hfiles. apply lookup_insert_eq.
Defined.

Lemma download_file_Ok_exists net filename url (w w1 : Fetch.world) :
  Fetch.download_file net filename url w = (Ok (), w1) →
  is_Some (Fetch.files w1 !! filename).
Proof.
  unfold Fetch.download_file, Fetch.open_wb.
  destruct (bool_decide (filename ∈ Fetch.dirs w)); [discriminate|].
  destruct (bool_decide (Fetch.dirname filename = "")
            || bool_decide (Fetch.dirname filename ∈ Fetch.dirs w)); [|discriminate].
  destruct (net url) as [|status_code blocks complete]; [discriminate|].
  destruct (Fetch.is_error_status status_code); [discriminate|].
  destruct complete; [|discriminate].
  match goal with
  | |- context [fold_left ?f blocks ?w0] =>
      pose proof (write_blocks filename blocks w0) as Hw;
      set (wf := fold_left f blocks w0) in *
  end.
  cbv zeta in Hw. destruct Hw as (Hf & _).
  intros [= <-]. rewrite Hf. simpl. rewrite lookup_alter_eq, lookup_insert_eq.
  simpl. eauto.
Qed.

Lemma download_if_not_exists_local net filename url (w : Fetch.world) :
  Fetch.path_exists filename w = true →
  ∃ w', Fetch.download_if_not_exists net filename url w = (Ok (), w')
        ∧ Fetch.requests w' = Fetch.requests w
        ∧ Fetch.files w' = Fetch.files w
        ∧ Fetch.dirs w' = Fetch.dirs w.
Proof.
  intros H. unfold Fetch.download_if_not_exists. rewrite H. simpl.
  eexists. repeat split.
Qed.

Lemma download_if_not_exists_Ok_exists net filename url (w w1 : Fetch.world) :
  Fetch.download_if_not_exists net filename url w = (Ok (), w1) →
  Fetch.path_exists filename w1 = true.
Proof.
  unfold Fetch.download_if_not_exists.
  destruct (Fetch.path_exists filename w) eqn:E; simpl.
  - intros [= <-]. exact E.
  - destruct (if negb (Fetch.path_exists (Fetch.dirname filename) w)
              then Fetch.makedirs (Fetch.dirname filename) w else (Ok (), w))
      as [[[]|e] w0]; [|discriminate].
    destruct (Fetch.download_file net filename url _) as [[[]|e] w'] eqn:Hfile;
      [|discriminate].
    intros [= <-]. apply download_file_Ok_exists in Hfile as Hsome.
    unfold Fetch.path_exists. simpl.
    rewrite (bool_decide_eq_true_2 _ Hsome). reflexivity.
Qed.

(** After a call of [download_if_not_exists] that ended well the file is
    there, so that every later call for the same path is answered from the
    local copy: no request, no change to files or directories, whatever the
    address and whatever the remote side would answer. *)
Theorem download_is_cached (net : Fetch.remote) (filename url : string)
    (w w1 : Fetch.world) :
  Fetch.download_if_not_exists net filename url w = (Ok (), w1) →
  Fetch.path_exists filename w1 = true
  ∧ ∀ (net' : Fetch.remote) (url' : string),
      ∃ w2, Fetch.download_if_not_exists net' filename url' w1 = (Ok (), w2)
            ∧ Fetch.requests w2 = Fetch.requests w1
            ∧ Fetch.files w2 = Fetch.files w1
            ∧ Fetch.dirs w2 = Fetch.dirs w1.
Proof.
  intros Hrun.
  pose proof (download_if_not_exists_Ok_exists _ _ _ _ _ Hrun) as Hexists.
  split; [exact Hexists|]. intros net' url'.
  apply download_if_not_exists_local, Hexists.
Qed.

Lemma download_is_cached_witness :
  let w := {| Fetch.files := ∅; Fetch.dirs := {[ "PPN86268370X/alto" ]};
              Fetch.requests := []; Fetch.stdout := "" |} in
  let net : Fetch.remote := fun _ => Fetch.Response 200 [[Byte.x61]] true in
  let gone : Fetch.remote := fun _ => Fetch.NoAnswer in
  ∃ w1 w2,
    Fetch.download_if_not_exists net "PPN86268370X/alto/00000001.xml" "u" w = (Ok (), w1)
    ∧ Fetch.download_if_not_exists gone "PPN86268370X/alto/00000001.xml" "u" w1 = (Ok (), w2)
    ∧ Fetch.requests w2 = ["u"].
Proof.
  intros w net gone. eexists.
  assert (Fetch.download_if_not_exists net "PPN86268370X/alto/00000001.xml" "u" w
          = (Ok (), _)) as Hrun by (vm_compute; reflexivity).
  destruct (download_is_cached _ _ _ _ _ Hrun) as [_ Hlater].
  destruct (Hlater gone "u") as (w2 & Hrun2 & Hreq & _).
  exists w2. split; [exact Hrun|]. split; [exact Hrun2|]. rewrite Hreq. reflexivity.
Defined.

(** A file name without a directory part cannot be downloaded: the script
    asks for the directory with the empty name to be made, which fails with
    [FileNotFoundError] before anything is requested or written. *)
Theorem plain_name_is_refused (net : Fetch.remote) (filename url : string)
    (w : Fetch.world) :
  Fetch.dirname filename = "" →
  Fetch.path_exists filename w = false →
  Fetch.path_exists "" w = false →
  Fetch.download_if_not_exists net filename url w = (Raise (FileNotFoundError ""), w).
Proof.
  intros Hdir Hfile Hempty. unfold Fetch.download_if_not_exists.
  rewrite Hfile, Hdir, Hempty. reflexivity.
Qed.

Lemma plain_name_is_refused_witness :
  let w := {| Fetch.files := ∅; Fetch.dirs := ∅; Fetch.requests := []; Fetch.stdout := "" |} in
  Fetch.download_if_not_exists (fun _ => Fetch.Response 200 [] true) "mets.xml" "u" w
  = (Raise (FileNotFoundError ""), w).
Proof.
  intros w. apply (plain_name_is_refused _ "mets.xml" "u" w); reflexivity.
Defined.

(** When every file of the record is already in the ALTO directory, the
    loop over the full-text URLs ends well without a single request and
    without touching a file or a directory. *)
Theorem alto_loop_runs_offline (net : Fetch.remote) (fulltext_path : list string)
    (w : Fetch.world) :
  (∀ alto_url, alto_url ∈ fulltext_path →
     Fetch.path_exists (Corpus.alto_dir +:+ Corpus.basename alto_url) w = true) →
  ∃ w', Corpus.download_alto net fulltext_path w = (Ok (), w')
        ∧ Fetch.requests w' = Fetch.requests w
        ∧ Fetch.files w' = Fetch.files w
        ∧ Fetch.dirs w' = Fetch.dirs w.
Proof.
  revert w. induction fulltext_path as [|alto_url rest IH]; intros w Hall.
  - exists w. repeat split.
  - cbn [Corpus.download_alto].
    destruct (download_if_not_exists_local net (Corpus.alto_dir +:+ Corpus.basename alto_url)
                alto_url w) as (w1 & -> & Hr & Hf & Hd).
    { apply Hall. left. }
    destruct (IH w1) as (w' & Hrun & Hr' & Hf' & Hd').
    { intros u Hu. unfold Fetch.path_exists. rewrite Hf, Hd. apply Hall. right. exact Hu. }
    exists w'. split; [exact Hrun|]. repeat split; congruence.
Qed.

Lemma alto_loop_runs_offline_witness :
  let w := {| Fetch.files := {[ "PPN86268370X/alto/00000001.xml" := [Byte.x78] ]};
              Fetch.dirs := {[ "PPN86268370X/alto" ]};
              Fetch.requests := []; Fetch.stdout := "" |} in
  ∃ w', Corpus.download_alto (fun _ => Fetch.NoAnswer)
          ["https://img.sub.uni-hamburg.de/kitodo/PPN86268370X/00000001.xml";
           "https://mirror.example/other/00000001.xml"] w = (Ok (), w')
        ∧ Fetch.requests w' = [].
Proof.
  intros w.
  destruct (alto_loop_runs_offline (fun _ => Fetch.NoAnswer)
              ["https://img.sub.uni-hamburg.de/kitodo/PPN86268370X/00000001.xml";
               "https://mirror.example/other/00000001.xml"] w) as (w' & Hrun & Hreq & _).
  - intros u Hu. apply elem_of_cons in Hu as [->|Hu]; [reflexivity|].
    apply list_elem_of_singleton in Hu as ->. reflexivity.
  - exists w'. split; [exact Hrun|exact Hreq].
Defined.

Lemma length_string_of_list_ascii (l : list ascii) :
  String.length (string_of_list_ascii l) = length l.
Proof. induction l as [|c l IH]; simpl; [reflexivity|]. rewrite IH. reflexivity. Qed.

Lemma length_list_ascii_of_string (s : string) :
  length (list_ascii_of_string s) = String.length s.
Proof. induction s as [|c s IH]; simpl; [reflexivity|]. rewrite IH. reflexivity. Qed.

Lemma ancestors_length pre l a :
  a ∈ Fetch.ancestors pre l → (String.length a <= length pre + length l)%nat.
Proof.
  revert pre. induction l as [|c l IH]; intros pre; simpl.
  - destruct pre as [|c0 pre]; [intros H; inversion H|].
    intros H. apply list_elem_of_singleton in H as ->.
    rewrite length_string_of_list_ascii. simpl. lia.
  - intros H. apply elem_of_app in H as [H|H].
    + destruct (bool_decide (c = Fetch.sep)); [|inversion H].
      destruct (Fetch.rstrip_sep_rev (rev pre)); [inversion H|].
      apply list_elem_of_singleton in H as ->.
      rewrite length_string_of_list_ascii. lia.
    + apply IH in H. rewrite length_app in H. simpl in H. lia.
Qed.

Lemma ancestors_last pre l :
  pre ++ l ≠ [] → string_of_list_ascii (pre ++ l) ∈ Fetch.ancestors pre l.
Proof.
  revert pre. induction l as [|c l IH]; intros pre Hne; simpl.
  - rewrite app_nil_r in *. destruct pre; [contradiction|]. apply list_elem_of_singleton. reflexivity.
  - apply elem_of_app. right.
    replace (pre ++ c :: l) with ((pre ++ [c]) ++ l) by (rewrite <- app_assoc; reflexivity).
    apply IH. destruct pre; discriminate.
Qed.

Lemma length_drop_tail_rev l : (length (Fetch.drop_tail_rev l) <= length l)%nat.
Proof.
  induction l as [|c l IH]; simpl; [lia|].
  destruct (bool_decide (c = Fetch.sep)); simpl; lia.
Qed.

Lemma length_rstrip_sep_rev l : (length (Fetch.rstrip_sep_rev l) <= length l)%nat.
Proof.
  induction l as [|c l IH]; simpl; [lia|].
  destruct (bool_decide (c = Fetch.sep)); simpl; lia.
Qed.

(** The directory part of a name that has a last component is shorter than
    the name. *)
Lemma dirname_shorter (filename : string) :
  Corpus.basename filename ≠ "" →
  (String.length (Fetch.dirname filename) < String.length filename)%nat.
Proof.
  unfold Corpus.basename, Fetch.dirname. intros Hbase.
  rewrite <- (length_list_ascii_of_string filename), <- (length_rev (list_ascii_of_string filename)).
  destruct (rev (list_ascii_of_string filename)) as [|c l] eqn:E; [contradiction|].
  cbn [Corpus.basename_rev Fetch.drop_tail_rev] in *.
  destruct (bool_decide (c = Fetch.sep)); [contradiction|].
  pose proof (length_drop_tail_rev l) as H1.
  pose proof (length_rstrip_sep_rev (Fetch.drop_tail_rev l)) as H2.
  destruct (Fetch.rstrip_sep_rev (Fetch.drop_tail_rev l));
    rewrite length_string_of_list_ascii, length_rev; simpl in *; lia.
Qed.

Lemma makedirs_success (name : string) (w : Fetch.world) :
  name ≠ "" →
  (∀ a, a ∈ Fetch.ancestors [] (list_ascii_of_string name) → Fetch.files w !! a = None) →
  name ∈ Fetch.ancestors [] (list_ascii_of_string name)
  ∧ Fetch.makedirs name w
    = (Ok (),
       {| Fetch.files := Fetch.files w;
          Fetch.dirs := Fetch.dirs w
                        ∪ list_to_set (Fetch.ancestors [] (list_ascii_of_string name));
          Fetch.requests := Fetch.requests w; Fetch.stdout := Fetch.stdout w |}).
Proof.
  intros Hname Hfree.
  assert (name ∈ Fetch.ancestors [] (list_ascii_of_string name)) as Hlast.
  { pose proof (ancestors_last [] (list_ascii_of_string name)) as H.
    simpl in H. rewrite string_of_list_ascii_of_string in H. apply H.
    destruct name; [contradiction|discriminate]. }
  split; [exact Hlast|]. unfold Fetch.makedirs. cbv zeta.
  destruct (Fetch.ancestors [] (list_ascii_of_string name)) as [|a0 chain] eqn:E;
    [inversion Hlast|].
  assert (list_find (fun d => is_Some (Fetch.files w !! d)) (a0 :: chain) = None) as ->.
  { apply list_find_None, Forall_forall. intros a Ha [x Hx].
    rewrite (Hfree a Ha) in Hx. discriminate. }
  reflexivity.
Qed.

(** [download_if_not_exists] makes the missing directories first: when
    neither the file nor its directory is there, no name on the way to the
    directory is taken by a file and the remote side answers well, the
    directory is made, the body is written to the file and one request is
    made; the directories that were there remain. *)
Theorem download_makes_directories (net : Fetch.remote) (filename url : string)
    (w : Fetch.world) (status_code : Z) (blocks : list (list Byte.byte)) :
  Corpus.basename filename ≠ "" →
  Fetch.dirname filename ≠ "" →
  Fetch.path_exists filename w = false →
  Fetch.path_exists (Fetch.dirname filename) w = false →
  (∀ a, a ∈ Fetch.ancestors [] (list_ascii_of_string (Fetch.dirname filename)) →
        Fetch.files w !! a = None) →
  net url = Fetch.Response status_code blocks true →
  Fetch.is_error_status status_code = false →
  ∃ w',
    Fetch.download_if_not_exists net filename url w = (Ok (), w')
    ∧ Fetch.files w' = <[filename := concat blocks]> (Fetch.files w)
    ∧ Fetch.dirname filename ∈ Fetch.dirs w'
    ∧ Fetch.dirs w ⊆ Fetch.dirs w'
    ∧ Fetch.requests w' = Fetch.requests w ++ [url].
Proof.
  intros Hbase Hdir Hfile Hnodir Hfree Hnet Hstatus.
  unfold Fetch.download_if_not_exists. rewrite Hfile, Hnodir. cbn [negb].
  destruct (makedirs_success _ w Hdir Hfree) as [Hlast ->].
  set (w1 := Fetch.print _ _).
  destruct (download_file_success net filename url w1 status_code blocks)
    as (w' & Hrun & Hf & Hd & Hr & _); [| |exact Hnet|exact Hstatus|].
  - unfold w1. simpl. intros Hin. apply elem_of_union in Hin as [Hin|Hin].
    + unfold Fetch.path_exists in Hfile. apply orb_false_elim in Hfile as [_ Hfile].
      apply bool_decide_eq_false_1 in Hfile. contradiction.
    + apply elem_of_list_to_set in Hin. apply ancestors_length in Hin.
      rewrite length_list_ascii_of_string in Hin. simpl in Hin.
      pose proof (dirname_shorter filename Hbase). lia.
  - unfold w1. simpl. apply elem_of_union. right. apply elem_of_list_to_set, Hlast.
  - rewrite Hrun. eexists. split; [reflexivity|]. simpl. rewrite Hf, Hd, Hr.
    unfold w1. simpl. repeat split.
    + apply elem_of_union. right. apply elem_of_list_to_set, Hlast.
    + apply union_subseteq_l.
Qed.

Lemma download_makes_directories_witness :
  let w := {| Fetch.files := ∅; Fetch.dirs := ∅; Fetch.requests := []; Fetch.stdout := "" |} in
  let net : Fetch.remote := fun _ => Fetch.Response 200 [[Byte.x61]] true in
  ∃ w', Fetch.download_if_not_exists net Corpus.mets_filename Corpus.mets_url w = (Ok (), w')
        ∧ Fetch.files w' !! Corpus.mets_filename = Some [Byte.x61]
        ∧ "PPN86268370X/mets" ∈ Fetch.dirs w'.
Proof.
  intros w net.
  destruct (download_makes_directories net Corpus.mets_filename Corpus.mets_url w 200
              [[Byte.x61]]) as (w' & Hrun & Hf & Hd & _).
  - vm_compute. discriminate.
  - vm_compute. discriminate.
  - reflexivity.
  - reflexivity.
  - intros a _. apply lookup_empty.
  - reflexivity.
  - reflexivity.
  - exists w'. split; [exact Hrun|]. split; [|exact Hd].
    rewrite Hf. apply lookup_insert_eq.
Defined.

(** A stream that breaks after some blocks leaves those blocks in the file:
    the download ends in a connection error and the file holds the part of
    the body that arrived. *)
Theorem interrupted_download_leaves_part (net : Fetch.remote) (filename url : string)
    (w : Fetch.world) (status_code : Z) (blocks : list (list Byte.byte)) :
  filename ∉ Fetch.dirs w →
  Fetch.dirname filename ∈ Fetch.dirs w →
  net url = Fetch.Response status_code blocks false →
  Fetch.is_error_status status_code = false →
  ∃ w',
    Fetch.download_file net filename url w = (Raise (ConnectionError url), w')
    ∧ Fetch.files w' !! filename = Some (concat blocks)
    ∧ Fetch.path_exists filename w' = true.
Proof.
  intros Hfile Hdir Hnet Hstatus. unfold Fetch.download_file, Fetch.open_wb.
  rewrite bool_decide_eq_false_2 by exact Hfile.
  rewrite (bool_decide_eq_true_2 (Fetch.dirname filename ∈ Fetch.dirs w)) by exact Hdir.
  rewrite orb_true_r. rewrite Hnet, Hstatus.
  match goal with
  | |- context [fold_left ?f blocks ?w0] =>
      pose proof (write_blocks filename blocks w0) as Hw;
      set (wf := fold_left f blocks w0) in *
  end.
  cbv zeta in Hw. destruct Hw as (Hf & _).
  assert (Fetch.files wf !! filename = Some (concat blocks)) as Hcontent.
  { rewrite Hf. simpl. rewrite lookup_alter_eq, lookup_insert_eq. reflexivity. }
  exists wf. split; [reflexivity|]. split; [exact Hcontent|].
  unfold Fetch.path_exists. rewrite bool_decide_eq_true_2 by eauto. reflexivity.
Qed.

Lemma interrupted_download_leaves_part_witness :
  let w := {| Fetch.files := ∅; Fetch.dirs := {[ "PPN86268370X/alto" ]};
              Fetch.requests := []; Fetch.stdout := "" |} in
  let net : Fetch.remote := fun _ => Fetch.Response 200 [[Byte.x61]; [Byte.x62]] false in
  ∃ w', Fetch.download_file net "PPN86268370X/alto/00000001.xml" "u" w
        = (Raise (ConnectionError "u"), w')
        ∧ Fetch.files w' !! "PPN86268370X/alto/00000001.xml" = Some [Byte.x61; Byte.x62].
Proof.
  intros w net.
  destruct (interrupted_download_leaves_part net "PPN86268370X/alto/00000001.xml" "u" w 200
              [[Byte.x61]; [Byte.x62]]) as (w' & Hrun & Hfiles & _).
  - by_evaluation.
  - by_evaluation.
  - reflexivity.
  - reflexivity.
  - exists w'. split; [exact Hrun|exact Hfiles].
Defined.

Lemma basename_rev_no_sep l : Forall (fun c => c ≠ Fetch.sep) (Corpus.basename_rev l).
Proof.
  induction l as [|c l IH]; simpl; [constructor|].
  case_bool_decide; constructor; auto.
Qed.

Lemma drop_tail_rev_app l1 l2 :
  Forall (fun c => c ≠ Fetch.sep) l1 →
  Fetch.drop_tail_rev (l1 ++ l2) = Fetch.drop_tail_rev l2.
Proof.
  induction 1 as [|c l1 Hc _ IH]; simpl; [reflexivity|].
  rewrite bool_decide_eq_false_2 by exact Hc. exact IH.
Qed.

(** Whatever the address looks like, its file lies directly in the ALTO
    directory of the record: only the last component of the address is
    used, and it has no slash. *)
Theorem alto_files_share_one_directory (alto_url : string) :
  Fetch.dirname (Corpus.alto_dir +:+ Corpus.basename alto_url) = "PPN86268370X/alto".
Proof.
  unfold Fetch.dirname, Corpus.basename.
  rewrite list_ascii_of_string_append, list_ascii_of_string_of_list_ascii.
  rewrite rev_app_distr, rev_involutive.
  rewrite drop_tail_rev_app.
  - reflexivity.
  - apply basename_rev_no_sep.
Qed.

(** Two addresses with the same last component share one file: once the
    first is stored, the second is answered from the local copy and its
    address is never requested. *)
Theorem same_name_is_downloaded_once (net : Fetch.remote) (url1 url2 : string)
    (w w' : Fetch.world) :
  Corpus.basename url1 = Corpus.basename url2 →
  Corpus.download_alto net [url1; url2] w = (Ok (), w') →
  ∃ w1,
    Fetch.download_if_not_exists net (Corpus.alto_dir +:+ Corpus.basename url1) url1 w
    = (Ok (), w1)
    ∧ Fetch.requests w' = Fetch.requests w1
    ∧ Fetch.files w' = Fetch.files w1.
Proof.
  intros Hsame. cbn [Corpus.download_alto]. rewrite <- Hsame.
  destruct (Fetch.download_if_not_exists net _ url1 w) as [[[]|e] w1] eqn:Hfirst;
    [|discriminate].
  pose proof (download_if_not_exists_Ok_exists _ _ _ _ _ Hfirst) as Hexists.
  destruct (download_if_not_exists_local net (Corpus.alto_dir +:+ Corpus.basename url1)
              url2 w1 Hexists) as (w2 & -> & Hr & Hf & _).
  intros [= <-]. exists w1. auto.
Qed.

Lemma same_name_is_downloaded_once_witness :
  let w := {| Fetch.files := ∅; Fetch.dirs := {[ "PPN86268370X/alto" ]};
              Fetch.requests := []; Fetch.stdout := "" |} in
  let net : Fetch.remote := fun _ => Fetch.Response 200 [[Byte.x61]] true in
  ∃ w', Corpus.download_alto net ["https://a.example/x/1.xml"; "https://b.example/y/1.xml"] w
        = (Ok (), w')
        ∧ Fetch.requests w' = ["https://a.example/x/1.xml"].
Proof.
  intros w net.
  destruct (Corpus.download_alto net
              ["https://a.example/x/1.xml"; "https://b.example/y/1.xml"] w)
    as [r w'] eqn:Hrun.
  assert (r = Ok ()) as ->.
  { apply (f_equal fst) in Hrun. vm_compute in Hrun. congruence. }
  exists w'. split; [reflexivity|].
  destruct (same_name_is_downloaded_once net "https://a.example/x/1.xml"
              "https://b.example/y/1.xml" w w') as (w1 & Hfirst & Hreq & _).
  - vm_compute. reflexivity.
  - exact Hrun.
  - rewrite Hreq. apply (f_equal (fun rw => Fetch.requests (snd rw))) in Hfirst.
    cbn [snd] in Hfirst. rewrite <- Hfirst. vm_compute. reflexivity.
Defined.

(** ** The whole drawing step *)






(** A line without a value, be it without words or with missing values
    only, is still drawn: as a stripe of a single cell that has no colour. *)
Theorem line_without_values_is_one_empty_cell (row : Stats.Series) :
  Forall (fun x => isnan x = true) row →
  Plot.patches (Plot.warming_stripe row)
  = [{| Plot.xy := (0, 0); Plot.width := 1; Plot.height := 1 |}]
  ∧ Plot.xlim (Plot.warming_stripe row) = (0, 1)
  ∧ (∀ i, Plot.facecolor (Plot.warming_stripe row) i = None)
  ∧ image_size (Savefig (Plot.warming_stripe row)) = (1000, 100)%N.
Proof.
  intros Hrow.
  assert (Stats.dropna row = []) as Hdrop.
  { unfold Stats.dropna, Stats.Series. induction Hrow as [|x row Hx _ IH]; [reflexivity|].
    rewrite filter_cons_False; [exact IH|]. unfold notna. rewrite Hx. discriminate. }
  unfold Plot.warming_stripe, Plot.facecolor. cbn [Plot.patches Plot.xlim Plot.array Plot.figsize image_size fst snd].
  rewrite Hdrop. repeat split.
Qed.

Lemma line_without_values_is_one_empty_cell_witness :
  Plot.patches (Plot.warming_stripe [NaN; NaN])
  = [{| Plot.xy := (0, 0); Plot.width := 1; Plot.height := 1 |}].
Proof.
  apply (line_without_values_is_one_empty_cell [NaN; NaN]). repeat constructor.
Defined.
